(** * manta-mprune: the twice-monthly retention policy of lib/mprune.js

    A shallow embedding of the policy registry ([policyForName]), of the
    part of the [MpruneOperation] constructor that builds the policy, and of
    the [MprunePolicyTwiceMonthly] transform stream ([_transform], [_flush],
    [processMonth], [dayIsComplete]), followed by the properties of these
    functions.

    JavaScript arrays of regular expressions are mutable and can be aliased
    (the caller keeps a reference to [args.p_expect]); they live in a heap of
    arrays indexed by locations, and [Array.prototype.slice] allocates.  The
    bucket tree [mpm_root] is owned by the policy object alone and is a
    nest of finite maps.  Code runs in a state-and-error monad over the state
    of the policy object and the heap. *)

From Stdlib Require Import ZArith Ascii String List.
From Equations.Prop Require Import Equations Logic.
From stdpp Require Import base option list gmap strings pretty.

Local Open Scope string_scope.
Local Open Scope list_scope.
Local Open Scope nat_scope.

(** ** Errors and results *)

(** [VError] is what the source builds with [new VError(fmt, ...)], with the
    formatted message; [AssertionError] is what a failed [mod_assertplus]
    check throws; [TypeError] is what reading a property of [undefined]
    throws. *)
Inductive Error : Type :=
  | VError (message : string)
  | AssertionError (message : string)
  | TypeError (message : string).

Inductive Result (A : Type) : Type :=
  | Ok (a : A)
  | Err (e : Error).
Arguments Ok {A} a.
Arguments Err {A} e.

(** ** Strings: [String.prototype.toLowerCase] on ASCII *)

(** Strings are sequences of 8-bit characters.  On the letters [A]..[Z]
    lowercasing adds 32 to the code; every other character is unchanged.
    (Outside ASCII, the lowercase form of a character is never a single
    letter of "twicemonthly".) *)
Definition ascii_toLowerCase (c : ascii) : ascii :=
  let n := nat_of_ascii c in
  if (65 <=? n) && (n <=? 90) then ascii_of_nat (n + 32) else c.

Definition ascii_toUpperCase (c : ascii) : ascii :=
  let n := nat_of_ascii c in
  if (97 <=? n) && (n <=? 122) then ascii_of_nat (n - 32) else c.

Fixpoint toLowerCase (s : string) : string :=
  match s with
  | EmptyString => EmptyString
  | String c s' => String (ascii_toLowerCase c) (toLowerCase s')
  end.

(** [case_variant s t]: [s] is [t] with some of its letters in upper case. *)
Inductive case_variant : string -> string -> Prop :=
  | case_variant_nil : case_variant EmptyString EmptyString
  | case_variant_same c s t :
      case_variant s t -> case_variant (String c s) (String c t)
  | case_variant_upper c s t :
      case_variant s t ->
      case_variant (String (ascii_toUpperCase c) s) (String c t).

(** ** The policy registry *)

(** The constructors a policy name can resolve to. *)
Inductive PolicyCtor : Type :=
  | MprunePolicyTwiceMonthly.

(** [var mpPolicies = { 'twicemonthly': MprunePolicyTwiceMonthly }]: the own
    properties of the object literal. *)
Definition mpPolicies : gmap string PolicyCtor :=
  {[ "twicemonthly" := MprunePolicyTwiceMonthly ]}.

(** [policyForName(name)]: returns (does not throw) either an error or the
    constructor. *)
Definition policyForName (name : string) : Error + PolicyCtor :=
  let t := toLowerCase name in
  match mpPolicies !! t with
  | None => inl (VError ("unsupported policy: " +:+ name))
  | Some ctor => inr ctor
  end.

(** ** Data model *)

(** A [Date] is used through three getters only; the record holds what they
    return.  A [Date] that holds a time value answers [getUTCMonth()] with
    a month in 0..11 and [getUTCDate()] with a day in 1..31, and the record
    carries these two facts. *)
Record Date : Type := mkDate {
  getUTCFullYear : Z;
  getUTCMonth : nat;
  getUTCDate : nat;
  getUTCMonth_range : (getUTCMonth <? 12) = true;
  getUTCDate_range : (1 <=? getUTCDate) && (getUTCDate <=? 31) = true
}.

(** A regular expression is used through [test] only.  The expressions have
    neither the [g] nor the [y] flag, so [test] keeps no state between
    calls. *)
Record RegExp : Type := mkRegExp {
  test : string -> bool
}.

(** The expression [/lit/] for a literal [lit] without special characters
    (after unescaping): it matches the strings that contain [lit]. *)
Definition RegExp_literal (lit : string) : RegExp :=
  mkRegExp (fun s => bool_decide (is_Some (index 0 lit s))).

(** What [MpruneTransformPath] hands to the policy: the object found, with
    [start] (the result of [extractBeginTimeFor], [None] for [null]) and
    [basename]. *)
Record ObjectRecord : Type := mkObject {
  type : string;
  path : string;
  start : option Date;
  basename : string
}.

(** What the policy pushes to its target: [{ type, path, reason }], [reason]
    being [None] where the object literal has no such property. *)
Record DecisionRecord : Type := mkDecision {
  d_type : string;
  d_path : string;
  d_reason : option string
}.

(** A ['warn'] event of vstream's [vsWarn(error, kind)]. *)
Record Warning : Type := mkWarning {
  w_error : Error;
  w_kind : string
}.

(** Arrays of regular expressions are heap objects. *)
Definition loc : Type := positive.

(** The three levels of the bucket tree below [mpm_root]: day of the month
    to the objects of that day, month (1..12) to its days, year to its
    months.  Property names are the decimal spelling of the number. *)
Abbreviation MonthTree := (gmap nat (list ObjectRecord)).
Abbreviation YearTree := (gmap nat (gmap nat (list ObjectRecord))).
Abbreviation RootTree := (gmap Z (gmap nat (gmap nat (list ObjectRecord)))).

(** The state a call of the policy's methods can read and change: the heap
    of arrays, the fields [mpm_root] and [mpm_expect] of [this], what the
    readable side of the stream has been given by [this.push], and the
    warnings emitted. *)
Record State : Type := mkState {
  heap : gmap loc (list RegExp);
  mpm_root : gmap Z (gmap nat (gmap nat (list ObjectRecord)));
  mpm_expect : loc;
  pushed : list DecisionRecord;
  ended : bool;
  warned : list Warning
}.

Definition set_heap (h : gmap loc (list RegExp)) (s : State) : State :=
  mkState h (mpm_root s) (mpm_expect s) (pushed s) (ended s) (warned s).
Definition set_root (r : RootTree) (s : State) : State :=
  mkState (heap s) r (mpm_expect s) (pushed s) (ended s) (warned s).
Definition set_pushed (p : list DecisionRecord) (s : State) : State :=
  mkState (heap s) (mpm_root s) (mpm_expect s) p (ended s) (warned s).
Definition set_ended (b : bool) (s : State) : State :=
  mkState (heap s) (mpm_root s) (mpm_expect s) (pushed s) b (warned s).
Definition set_warned (w : list Warning) (s : State) : State :=
  mkState (heap s) (mpm_root s) (mpm_expect s) (pushed s) (ended s) w.

(** ** The monad *)

Definition M (A : Type) : Type := State -> Result A * State.

#[global] Instance M_ret : MRet M := fun A a s => (Ok a, s).
#[global] Instance M_bind : MBind M := fun A B f m s =>
  match m s with
  | (Ok a, s') => f a s'
  | (Err e, s') => (Err e, s')
  end.

Definition throw {A : Type} (e : Error) : M A := fun s => (Err e, s).
Definition gets {A : Type} (f : State -> A) : M A := fun s => (Ok (f s), s).
Definition modify (f : State -> State) : M unit := fun s => (Ok tt, f s).

(** [arr.forEach(f)]. *)
Fixpoint forEach {A : Type} (l : list A) (f : A -> M unit) : M unit :=
  match l with
  | [] => mret tt
  | x :: l' => f x ;; forEach l' f
  end.

(** [mod_assertplus.ok(b)]. *)
Definition assert_ok (b : bool) : M unit :=
  if b then mret tt else throw (AssertionError "ok").

(** [this.push(record)] and [this.push(null)]. *)
Definition push (d : DecisionRecord) : M unit :=
  modify (fun s => set_pushed (pushed s ++ [d]) s).
Definition push_null : M unit := modify (set_ended true).

(** [this.vsWarn(error, kind)]. *)
Definition vsWarn (e : Error) (kind : string) : M unit :=
  modify (fun s => set_warned (warned s ++ [mkWarning e kind]) s).

(** *** Arrays *)

(** Reading the array behind a reference; a reference to nothing is
    [undefined], and reading a property of it throws. *)
Definition Array_read (a : loc) : M (list RegExp) := fun s =>
  match heap s !! a with
  | Some arr => (Ok arr, s)
  | None => (Err (TypeError "Cannot read property of undefined"), s)
  end.

Definition Array_length (a : loc) : M nat :=
  arr ← Array_read a; mret (length arr).

(** [a.slice(0)] on a heap: a new array, at a location not in use, with the
    elements of [a]. *)
Definition heap_slice0 (h : gmap loc (list RegExp)) (a : loc)
  : option (loc * gmap loc (list RegExp)) :=
  arr ← h !! a;
  let a' := fresh (dom h) in
  Some (a', <[a' := arr]> h).

Definition Array_slice0 (a : loc) : M loc := fun s =>
  match heap_slice0 (heap s) a with
  | Some (a', h') => (Ok a', set_heap h' s)
  | None => (Err (TypeError "Cannot read property of undefined"), s)
  end.

(** The loop of [dayIsComplete] over the working array, on the value of the
    array:
<<
  for (i = 0; i < regexps.length; i++) {
      if (regexps[i].test(o.basename)) {
          regexps.splice(i, 1);
          i--;
      }
  }
>>
    After a splice the index is decremented and then incremented: the next
    iteration looks at the same index of the shorter array.  There is no
    [break]. *)
Equations? spliceLoop (bn : string) (i : nat) (regexps : list RegExp)
  : list RegExp by wf (length regexps - i) lt :=
  spliceLoop bn i regexps with inspect (regexps !! i) := {
    | exist _ (Some re) _ =>
        if test re bn
        then spliceLoop bn i (delete i regexps)
        else spliceLoop bn (S i) regexps
    | exist _ None _ => regexps }.
Proof.
  all: match goal with H : _ !! _ = Some _ |- _ =>
         pose proof (lookup_lt_Some _ _ _ H) as Hlt end.
  - rewrite length_delete; [lia | eauto].
  - lia.
Qed.

(** The loop run on the array behind the reference [regexps]. *)
Definition spliceMatching (regexps : loc) (bn : string) : M unit :=
  arr ← Array_read regexps;
  modify (fun s => set_heap (<[regexps := spliceLoop bn 0 arr]> (heap s)) s).

(** ** [MprunePolicyTwiceMonthly.prototype.dayIsComplete] *)

(** [tree[which]] is an array whenever it is there, and [o.basename] is a
    string, by the types of the tree and of the objects: the [isArray] test
    and the assertion on the basename have no case of their own. *)
Definition dayIsComplete (tree : MonthTree) (which : nat) : M bool :=
  match tree !! which with
  | None => mret false
  | Some objects =>
      if length objects =? 0 then mret false
      else
        expect ← gets mpm_expect;
        n ← Array_length expect;
        if n =? 0 then mret true
        else
          regexps ← Array_slice0 expect;
          forEach objects (fun o => spliceMatching regexps (basename o)) ;;
          n' ← Array_length regexps;
          mret (n' =? 0)
  end.

(** ** [MprunePolicyTwiceMonthly.prototype.processMonth] *)

(** The two scanning loops,
<<
  for (day = from; day < bound; day++) {
      if (this.dayIsComplete(monthtree, day)) break;
  }
>>
    [scanDays monthtree n day] runs the [n] iterations that are left and
    returns the value of the loop variable after the loop. *)
Fixpoint scanDays (monthtree : MonthTree) (n : nat) (day : nat) : M nat :=
  match n with
  | 0 => mret day
  | S n' =>
      c ← dayIsComplete monthtree day;
      if c : bool then mret day else scanDays monthtree n' (S day)
  end.

Definition firstCompleteDay (monthtree : MonthTree) (from bound : nat) : M nat :=
  scanDays monthtree (bound - from) from.

Definition reason_undetermined : string :=
  "could not determine which objects to keep in this month".
Definition reason_keep : string := "designated for keeping".

(** The function given to [objects.forEach] in the last loop; [skip] is
    [false] where the variable is still [undefined]. *)
Definition emitDecision (skip : bool) (first second i : nat) (o : ObjectRecord)
  : M unit :=
  if skip then
    push (mkDecision "skip" (path o) (Some reason_undetermined))
  else if (i =? first) || (i =? second) then
    push (mkDecision "skip" (path o) (Some reason_keep))
  else
    push (mkDecision "remove" (path o) None).

(** [skip] starts as [undefined], which is [false] here.  The assertion
    [Array.isArray(objects)] holds by the type of the tree. *)
Definition processMonth (label : string) (monthtree : MonthTree) : M unit :=
  first ← firstCompleteDay monthtree 1 15;
  skip ← (if first =? 15 then
            vsWarn (VError (label +:+ ": no valid objects found in days 1-14"))
                   "nerr_missing" ;;
            mret true
          else mret false);
  second ← firstCompleteDay monthtree 15 32;
  skip ← (if second =? 32 then
            vsWarn (VError (label +:+ ": no valid objects found after day 15"))
                   "nerr_missing" ;;
            mret true
          else mret skip);
  (if negb skip && negb (first =? 1) then
     vsWarn (VError (label +:+ ": missing objects from day 1")) "nwarn_noday1"
   else mret tt) ;;
  (if negb skip && negb (second =? 15) then
     vsWarn (VError (label +:+ ": missing objects from day 1")) "nwarn_noday2"
   else mret tt) ;;
  assert_ok (skip || negb (first =? second)) ;;
  forEach (seq 0 32) (fun i =>
    match monthtree !! i with
    | None => mret tt
    | Some objects =>
        assert_ok (0 <? length objects) ;;
        forEach objects (emitDecision skip first second i)
    end).

(** ** [MprunePolicyTwiceMonthly.prototype._transform] *)

(** [setImmediate(callback, error)]: the stream emits ['error'] and calls
    neither [_transform] nor [_flush] again. *)
Definition callback_error {A : Type} (e : Error) : M A := throw e.

(** The three [hasOwnProperty] tests create the missing levels; the object
    is appended to the array of its day. *)
Definition _transform (obj : ObjectRecord) : M unit :=
  match start obj with
  | None =>
      callback_error
        (VError ("found entry not under a particular time bucket: " +:+ path obj))
  | Some when =>
      root ← gets mpm_root;
      let y := getUTCFullYear when in
      let yeartree : YearTree := default ∅ (root !! y) in
      let m := getUTCMonth when + 1 in
      let monthtree : MonthTree := default ∅ (yeartree !! m) in
      let d := getUTCDate when in
      let objects : list ObjectRecord := default [] (monthtree !! d) in
      modify (set_root
        (<[y := <[m := <[d := objects ++ [obj]]> monthtree]> yeartree]> root))
  end.

(** ** [MprunePolicyTwiceMonthly.prototype._flush] *)

(** [mod_jsprim.forEachKey(obj, f)] calls [f(key, obj[key])] for the own
    properties of [obj], in the order in which the engine enumerates them;
    here that is the order of [map_to_list], and no property below depends
    on it. *)
Definition forEachKey `{Countable K} {V : Type}
    (obj : gmap K V) (f : K -> V -> M unit) : M unit :=
  forEach (map_to_list obj) (fun kv => f kv.1 kv.2).

(** [sprintf('%s-%02d', year, month)]. *)
Definition pad02 (s : string) : string :=
  if String.length s <? 2 then "0" +:+ s else s.
Definition monthLabel (year : Z) (month : nat) : string :=
  pretty year +:+ "-" +:+ pad02 (pretty month).

Definition _flush : M unit :=
  root ← gets mpm_root;
  forEachKey root (fun year yeartree =>
    forEachKey yeartree (fun month monthtree =>
      processMonth (monthLabel year month) monthtree)) ;;
  push_null.

(** ** The stream and the operation *)

(** The policy as [mp_xform.pipe(mp_policy)] drives it: [_transform] for
    each object written, then [_flush] when the input ends. *)
Definition runPolicy (objs : list ObjectRecord) : M unit :=
  forEach objs _transform ;; _flush.

(** The arguments of [mprune] that reach the policy. *)
Record Args : Type := mkArgs {
  p_policy : PolicyCtor;
  p_expect : loc
}.

(** [new MpruneOperation(args)], as far as the policy is concerned: the
    assertions on [p_expect] and [p_policy], and
    [new (args.p_policy)({ ..., 'expect': args.p_expect.slice(0) })], whose
    constructor sets [mpm_root = {}] and [mpm_expect = args.expect]. *)
Definition MpruneOperation (args : Args) (h : gmap loc (list RegExp))
  : Result State :=
  match heap_slice0 h (p_expect args) with
  | None => Err (AssertionError "ok")
  | Some (expect, h') =>
      match p_policy args with
      | MprunePolicyTwiceMonthly => Ok (mkState h' ∅ expect [] false [])
      end
  end.

(** Between two calls of the stream into the policy the caller of [mprune]
    may run, and may change the array it passed as [p_expect]. *)
Inductive Event : Type :=
  | Written (obj : ObjectRecord)
  | CallerAssigns (arr : list RegExp).

Definition step (caller_array : loc) (ev : Event) : M unit :=
  match ev with
  | Written obj => _transform obj
  | CallerAssigns arr =>
      modify (fun s => set_heap (<[caller_array := arr]> (heap s)) s)
  end.

Definition runPolicyWith (caller_array : loc) (evs : list Event) : M unit :=
  forEach evs (step caller_array) ;; _flush.

(** ** Targets *)

(** [validateRecord(obj)]: a [skip] record has a string as [reason]; any
    other record has type [remove] and no [reason].  That [obj] is an object
    and [obj.path] a string holds by the type of the records. *)
Definition validateRecord (obj : DecisionRecord) : Result unit :=
  if String.eqb (d_type obj) "skip" then
    match d_reason obj with
    | Some _ => Ok tt
    | None => Err (AssertionError "obj.reason (string) is required")
    end
  else if String.eqb (d_type obj) "remove" then
    match d_reason obj with
    | None => Ok tt
    | Some _ => Err (AssertionError "ok")
    end
  else Err (AssertionError "unsupported type").

(** [JSON.stringify] of a string: the string between double quotes, with
    the double quote and the backslash behind a backslash, the control
    characters 8, 9, 10, 12 and 13 as [\b], [\t], [\n], [\f] and [\r], and
    the other characters below 32 as [\u00] and two hexadecimal digits. *)
Definition dquote : ascii := ascii_of_nat 34.
Definition backslash : ascii := ascii_of_nat 92.

Definition hexDigit (n : nat) : ascii :=
  if n <? 10 then ascii_of_nat (48 + n) else ascii_of_nat (87 + n).

Definition JSON_quoteChar (c : ascii) : string :=
  let n := nat_of_ascii c in
  if (n =? 34) || (n =? 92) then String backslash (String c EmptyString)
  else if n =? 8 then String backslash "b"
  else if n =? 12 then String backslash "f"
  else if n =? 10 then String backslash "n"
  else if n =? 13 then String backslash "r"
  else if n =? 9 then String backslash "t"
  else if n <? 32 then
    String backslash
      ("u00" +:+ String (hexDigit (n / 16))
                   (String (hexDigit (n mod 16)) EmptyString))
  else String c EmptyString.

Fixpoint JSON_quote (s : string) : string :=
  match s with
  | EmptyString => EmptyString
  | String c s' => JSON_quoteChar c +:+ JSON_quote s'
  end.

Definition JSON_stringify (s : string) : string :=
  String dquote (JSON_quote s +:+ String dquote EmptyString).

(** What a target has written with [console.log], line by line. *)
Definition Console : Type := list string.

(** The line of [MpruneTargetDryRun.prototype._write]; [%s] of a reason
    that is not there prints [undefined]. *)
Definition dryRunLine (stringify : string -> string) (obj : DecisionRecord)
  : string :=
  if String.eqb (d_type obj) "skip" then
    "would skip (" +:+ default "undefined" (d_reason obj) +:+ "): " +:+
    stringify (d_path obj)
  else "would remove: " +:+ stringify (d_path obj).

(** [MpruneTargetDryRun.prototype._write]. *)
Definition MpruneTargetDryRun_write (stringify : string -> string)
    (obj : DecisionRecord) (console : Console) : Result unit * Console :=
  match validateRecord obj with
  | Err e => (Err e, console)
  | Ok _ => (Ok tt, console ++ [dryRunLine stringify obj])
  end.

(** [MpruneTargetRemover.prototype._write]: after the validation, the
    callback gets an error, whatever the record. *)
Definition MpruneTargetRemover_write
    (obj : DecisionRecord) (console : Console) : Result unit * Console :=
  match validateRecord obj with
  | Err e => (Err e, console)
  | Ok _ =>
      (Err (VError "not yet implemented: MpruneTargetRemover.write()"), console)
  end.

(** A writable stream fed the records a policy pushed: [_write] for each
    record in turn, until one fails. *)
Fixpoint writeAll (write : DecisionRecord -> Console -> Result unit * Console)
    (records : list DecisionRecord) (console : Console)
  : Result unit * Console :=
  match records with
  | [] => (Ok tt, console)
  | obj :: records' =>
      match write obj console with
      | (Ok _, console') => writeAll write records' console'
      | (Err e, console') => (Err e, console')
      end
  end.

(** ** [MpruneTransformPath] and [MpruneOperation.prototype.start] *)

(** What the finder pushes: [{ type, path }]. *)
Record FoundObject : Type := mkFound {
  f_type : string;
  f_path : string
}.

(** The time-format filter [p_timefmt], as far as [MpruneTransformPath]
    uses it. *)
Record TimeFilter : Type := mkTimeFilter {
  extractBeginTimeFor : string -> option Date
}.

(** [MpruneTransformPath.prototype._transform]: the object pushed is the
    object received, with [start] and [basename] set; [path_basename] is
    [mod_path.basename]. *)
Definition MpruneTransformPath_transform (mtp_filter : TimeFilter)
    (path_basename : string -> string) (obj : FoundObject) : ObjectRecord :=
  mkObject (f_type obj) (f_path obj)
           (extractBeginTimeFor mtp_filter (f_path obj))
           (path_basename (f_path obj)).

Definition Error_message (e : Error) : string :=
  match e with
  | VError m => m
  | AssertionError m => m
  | TypeError m => m
  end.

(** [proxyEmitError(label)]: the error emitted is
    [new VError(error, '%s', label)], whose message is the label, a colon
    and the message of the cause. *)
Definition proxyEmitError (label : string) (error : Error) : Error :=
  VError (label +:+ ": " +:+ Error_message error).

(** What the caller of [mprune] observes: the ['error'] event, if any, an
    exception no stream catches, if any, the ['warn'] events, and the
    console. *)
Record Outcome : Type := mkOutcome {
  out_error : option Error;
  out_thrown : option Error;
  out_warnings : list Warning;
  out_console : Console
}.

(** An error handed to a stream callback (a [VError] in this code) becomes
    an ['error'] event, which [start] re-emits with the label of the stage;
    a failed assertion is thrown. *)
Definition stageFailure (label : string) (e : Error)
    (warnings : list Warning) (console : Console) : Outcome :=
  match e with
  | VError _ => mkOutcome (Some (proxyEmitError label e)) None warnings console
  | _ => mkOutcome None (Some e) warnings console
  end.

(** [MpruneOperation.prototype.start], for a finder that pushes the objects
    [found] and ends: the objects go through [mp_xform] into the policy in
    state [s], and what the policy pushes goes into the target, which is
    the dry-run target when [mp_dryrun] is set and the remover otherwise.
    The warnings of the policy are re-emitted as they are. *)
Definition MpruneOperation_start (mp_filter : TimeFilter)
    (path_basename stringify : string -> string) (mp_dryrun : bool)
    (found : list FoundObject) (s : State) : Outcome :=
  let objs := map (MpruneTransformPath_transform mp_filter path_basename) found in
  match runPolicy objs s with
  | (Err e, s') => stageFailure "policy" e (warned s') []
  | (Ok _, s') =>
      let write := if mp_dryrun
                   then MpruneTargetDryRun_write stringify
                   else MpruneTargetRemover_write in
      match writeAll write (pushed s') [] with
      | (Ok _, console) => mkOutcome None None (warned s') console
      | (Err e, console) => stageFailure "remover" e (warned s') console
      end
  end.

(** The arguments of [mprune] used here: those of the policy, the dry-run
    flag and the time-format filter. *)
Record MpruneArgs : Type := mkMpruneArgs {
  p_args : Args;
  p_dryrun : bool;
  p_timefmt : TimeFilter
}.

(** [mprune(args)]: [new MpruneOperation(args)], whose assertions may
    throw, then [start()]. *)
Definition mprune (path_basename stringify : string -> string)
    (args : MpruneArgs) (h : gmap loc (list RegExp))
    (found : list FoundObject) : Outcome :=
  match MpruneOperation (p_args args) h with
  | Err e => mkOutcome None (Some e) [] []
  | Ok s =>
      MpruneOperation_start (p_timefmt args) path_basename stringify
        (p_dryrun args) found s
  end.

(** ** Vocabulary of the properties *)

(** What is left of the working array of [dayIsComplete] once the loop has
    run for each object of the day. *)
Definition leftover (expect : list RegExp) (objects : list ObjectRecord)
  : list RegExp :=
  foldl (fun regexps o => spliceLoop (basename o) 0 regexps) expect objects.

(** The value [dayIsComplete] returns for a day whose property in the month
    tree is [bucket], when the array behind [mpm_expect] is [expect]. *)
Definition completeb (expect : list RegExp)
    (bucket : option (list ObjectRecord)) : bool :=
  match bucket with
  | None => false
  | Some objects =>
      negb (length objects =? 0) && (length (leftover expect objects) =? 0)
  end.

(** The value of the loop variable after a scanning loop whose test is
    [c]. *)
Fixpoint scanFrom (c : nat -> bool) (n day : nat) : nat :=
  match n with
  | 0 => day
  | S n' => if c day then day else scanFrom c n' (S day)
  end.

(** [dayIsComplete(monthtree, d)], called in state [s], returns [true]. *)
Definition complete (s : State) (monthtree : MonthTree) (d : nat) : Prop :=
  (dayIsComplete monthtree d s).1 = Ok true.

(** The first keep-day: the first complete day among the days 1..14; the
    second keep-day: the first complete day among the days 15..31. *)
Definition isFirstKeepDay (s : State) (monthtree : MonthTree) (f : nat) : Prop :=
  1 <= f <= 14 /\ complete s monthtree f /\
  forall d, 1 <= d < f -> ~ complete s monthtree d.

Definition isSecondKeepDay (s : State) (monthtree : MonthTree) (g : nat) : Prop :=
  15 <= g <= 31 /\ complete s monthtree g /\
  forall d, 15 <= d < g -> ~ complete s monthtree d.

(** A month is not degraded when each half has a complete day, and degraded
    when one of the two halves has none. *)
Definition nondegraded (s : State) (monthtree : MonthTree) : Prop :=
  (exists d, 1 <= d <= 14 /\ complete s monthtree d) /\
  (exists d, 15 <= d <= 31 /\ complete s monthtree d).

Definition degraded (s : State) (monthtree : MonthTree) : Prop :=
  (forall d, 1 <= d <= 14 -> ~ complete s monthtree d) \/
  (forall d, 15 <= d <= 31 -> ~ complete s monthtree d).

(** The month trees [_transform] builds: the days are days of a month and
    no array of a day is empty. *)
Definition MonthTree_wf (monthtree : MonthTree) : Prop :=
  forall d objects,
    monthtree !! d = Some objects -> d <= 31 /\ objects <> [].

Definition RootTree_wf (root : RootTree) : Prop :=
  forall y (yeartree : YearTree) m (monthtree : MonthTree),
    root !! y = Some yeartree -> yeartree !! m = Some monthtree ->
    MonthTree_wf monthtree.

(** The objects of a month, by day, and of the whole tree. *)
Definition monthObjects (monthtree : MonthTree) : list ObjectRecord :=
  flat_map (fun i => default [] (monthtree !! i)) (seq 0 32).

Definition rootObjects (root : RootTree) : list ObjectRecord :=
  flat_map (fun yt : Z * YearTree =>
    flat_map (fun mt : nat * MonthTree => monthObjects mt.2) (map_to_list yt.2))
    (map_to_list root).

(** The decision [emitDecision] pushes for an object of day [i]. *)
Definition decisionFor (skip : bool) (first second i : nat) (o : ObjectRecord)
  : DecisionRecord :=
  if skip then mkDecision "skip" (path o) (Some reason_undetermined)
  else if (i =? first) || (i =? second)
       then mkDecision "skip" (path o) (Some reason_keep)
       else mkDecision "remove" (path o) None.

Definition monthDecisions (skip : bool) (first second : nat)
    (monthtree : MonthTree) : list DecisionRecord :=
  flat_map (fun i => map (decisionFor skip first second i)
                         (default [] (monthtree !! i))) (seq 0 32).

(** The warnings of a month whose scanning loops ended at [first] and
    [second]. *)
Definition monthWarnings (label : string) (first second : nat) : list Warning :=
  let skip := (first =? 15) || (second =? 32) in
  (if first =? 15
   then [mkWarning (VError (label +:+ ": no valid objects found in days 1-14"))
                   "nerr_missing"] else []) ++
  (if second =? 32
   then [mkWarning (VError (label +:+ ": no valid objects found after day 15"))
                   "nerr_missing"] else []) ++
  (if negb skip && negb (first =? 1)
   then [mkWarning (VError (label +:+ ": missing objects from day 1"))
                   "nwarn_noday1"] else []) ++
  (if negb skip && negb (second =? 15)
   then [mkWarning (VError (label +:+ ": missing objects from day 1"))
                   "nwarn_noday2"] else []).

(** Where the scanning loops of [processMonth] stop, the value of [skip],
    and what [processMonth] and [_flush] push and emit, as functions of the
    tree and of the array behind [mpm_expect]. *)
Definition keepFirst (expect : list RegExp) (monthtree : MonthTree) : nat :=
  scanFrom (fun i => completeb expect (monthtree !! i)) 14 1.
Definition keepSecond (expect : list RegExp) (monthtree : MonthTree) : nat :=
  scanFrom (fun i => completeb expect (monthtree !! i)) 17 15.
Definition monthSkip (expect : list RegExp) (monthtree : MonthTree) : bool :=
  (keepFirst expect monthtree =? 15) || (keepSecond expect monthtree =? 32).

Definition processMonth_pushed (expect : list RegExp) (monthtree : MonthTree)
  : list DecisionRecord :=
  monthDecisions (monthSkip expect monthtree) (keepFirst expect monthtree)
    (keepSecond expect monthtree) monthtree.
Definition processMonth_warned (expect : list RegExp) (label : string)
    (monthtree : MonthTree) : list Warning :=
  monthWarnings label (keepFirst expect monthtree) (keepSecond expect monthtree).

Definition flush_pushed (expect : list RegExp) (root : RootTree)
  : list DecisionRecord :=
  flat_map (fun yt : Z * YearTree =>
    flat_map (fun mt : nat * MonthTree => processMonth_pushed expect mt.2)
             (map_to_list yt.2))
    (map_to_list root).
Definition flush_warned (expect : list RegExp) (root : RootTree)
  : list Warning :=
  flat_map (fun yt : Z * YearTree =>
    flat_map (fun mt : nat * MonthTree =>
                processMonth_warned expect (monthLabel yt.1 mt.1) mt.2)
             (map_to_list yt.2))
    (map_to_list root).

(** The tree after [_transform] has stored an object whose [start] is
    [when]. *)
Definition rootInsert (when : Date) (obj : ObjectRecord) (root : RootTree)
  : RootTree :=
  let y := getUTCFullYear when in
  let yeartree : YearTree := default ∅ (root !! y) in
  let m := getUTCMonth when + 1 in
  let monthtree : MonthTree := default ∅ (yeartree !! m) in
  let d := getUTCDate when in
  let objects : list ObjectRecord := default [] (monthtree !! d) in
  <[y := <[m := <[d := objects ++ [obj]]> monthtree]> yeartree]> root.

(** No array of a day is empty, anywhere in the tree. *)
Definition RootTree_nonempty (root : RootTree) : Prop :=
  forall y (yeartree : YearTree) m (monthtree : MonthTree) d objects,
    root !! y = Some yeartree -> yeartree !! m = Some monthtree ->
    monthtree !! d = Some objects -> objects <> [].

(** Two states of the policy that differ in the heap only, and not in the
    array behind [mpm_expect]. *)
Definition same_policy (s1 s2 : State) : Prop :=
  mpm_root s1 = mpm_root s2 /\ mpm_expect s1 = mpm_expect s2 /\
  pushed s1 = pushed s2 /\ ended s1 = ended s2 /\ warned s1 = warned s2 /\
  heap s1 !! mpm_expect s1 = heap s2 !! mpm_expect s2.

(** The objects written among the events of a run. *)
Definition written (evs : list Event) : list ObjectRecord :=
  omap (fun ev => match ev with Written o => Some o | CallerAssigns _ => None end)
       evs.

(** The matching the specification describes, to compare with the loop of
    [dayIsComplete]: each basename removes one expression it matches, the
    first one, and no other. *)
Fixpoint spec_removeOne (bn : string) (regexps : list RegExp) : list RegExp :=
  match regexps with
  | [] => []
  | re :: rest => if test re bn then rest else re :: spec_removeOne bn rest
  end.

Definition spec_completeOneToOne (expect : list RegExp)
    (objects : list ObjectRecord) : bool :=
  length (foldl (fun regexps o => spec_removeOne (basename o) regexps)
                expect objects) =? 0.

(** The array of a day in the tree, empty where the year, the month or
    the day is not there. *)
Definition bucketOf (root : RootTree) (y : Z) (m d : nat) : list ObjectRecord :=
  default [] (yeartree ← root !! y; monthtree ← yeartree !! m; monthtree !! d).

(** The year, month and day under which [_transform] stores an object. *)
Definition objectKey (o : ObjectRecord) : option (Z * nat * nat) :=
  when ← start o;
  Some (getUTCFullYear when, getUTCMonth when + 1, getUTCDate when).


(** Reading back the first character of a string that [JSON_quote]
    wrote. *)
Definition JSON_unquoteFirst (s : string) : option (ascii * string) :=
  match s with
  | EmptyString => None
  | String c r =>
      if negb (Ascii.eqb c backslash) then Some (c, r)
      else
        match r with
        | String e r' =>
            if Ascii.eqb e "u" then
              match r' with
              | String _ (String _ (String h1 (String h0 r''))) =>
                  let digit (x : ascii) :=
                    let n := nat_of_ascii x in
                    if n <? 58 then n - 48 else n - 87 in
                  Some (ascii_of_nat (16 * digit h1 + digit h0), r'')
              | _ => None
              end
            else if Ascii.eqb e "b" then Some (ascii_of_nat 8, r')
            else if Ascii.eqb e "f" then Some (ascii_of_nat 12, r')
            else if Ascii.eqb e "n" then Some (ascii_of_nat 10, r')
            else if Ascii.eqb e "r" then Some (ascii_of_nat 13, r')
            else if Ascii.eqb e "t" then Some (ascii_of_nat 9, r')
            else Some (e, r')
        | EmptyString => None
        end
  end.

(** The three shapes of the records [emitDecision] pushes. *)
Definition policyRecord (dec : DecisionRecord) : Prop :=
  d_type dec = "skip" /\ d_reason dec = Some reason_undetermined \/
  d_type dec = "skip" /\ d_reason dec = Some reason_keep \/
  d_type dec = "remove" /\ d_reason dec = None.

(** ** Examples *)

(** The expression [/a\.log/]; an object of a day of June 2020 whose
    basename is [a.log]; the state of the policy right after
    [new MpruneOperation(args)] when the caller's array, at location 1,
    holds [expect]; and a month with one object on day 1. *)
Definition ex_a_log : RegExp := RegExp_literal "a.log".

Definition ex_object (p : string) (day : nat)
    (Hday : (1 <=? day) && (day <=? 31) = true) : ObjectRecord :=
  mkObject "object" p (Some (mkDate 2020 5 day eq_refl Hday)) "a.log".

Definition ex_state (expect : list RegExp) : State :=
  mkState {[ 1%positive := expect; 2%positive := expect ]} ∅ 2%positive
          [] false [].

Definition ex_one_object : MonthTree :=
  {[ 1 := [ex_object "/backups/2020/06/01/a.log" 1 eq_refl] ]}.

(** Months with objects on the days 20 and 25, on the days 5 and 20, and
    on the days 1, 3, 15 and 20. *)
Definition ex_days_20_25 : MonthTree :=
  {[ 20 := [ex_object "/backups/2020/06/20/a.log" 20 eq_refl];
     25 := [ex_object "/backups/2020/06/25/a.log" 25 eq_refl] ]}.

Definition ex_days_5_20 : MonthTree :=
  {[ 5 := [ex_object "/backups/2020/06/05/a.log" 5 eq_refl];
     20 := [ex_object "/backups/2020/06/20/a.log" 20 eq_refl] ]}.

Definition ex_days_1_3_15_20 : MonthTree :=
  {[ 1 := [ex_object "/backups/2020/06/01/a.log" 1 eq_refl];
     3 := [ex_object "/backups/2020/06/03/a.log" 3 eq_refl];
     15 := [ex_object "/backups/2020/06/15/a.log" 15 eq_refl];
     20 := [ex_object "/backups/2020/06/20/a.log" 20 eq_refl] ]}.

(** Objects written to the policy, and an object without a date. *)
Definition ex_objects : list ObjectRecord :=
  [ ex_object "/backups/2020/06/20/a.log" 20 eq_refl;
    ex_object "/backups/2020/06/01/a.log" 1 eq_refl;
    ex_object "/backups/2020/06/15/a.log" 15 eq_refl;
    ex_object "/backups/2020/06/03/a.log" 3 eq_refl ].

Definition ex_undated : ObjectRecord :=
  mkObject "object" "/backups/README" None "README".

(** A time-format filter for paths [/backups/2020/06/DD/...], with the
    days 01, 15 and 20; the part of a path after its last slash, which is
    what [mod_path.basename] gives for a path that does not end in a slash;
    objects found; and arguments of [mprune] whose expected list, at
    location 1 of [ex_heap], is [[/a\.log/]]. *)
Definition ex_filter : TimeFilter :=
  mkTimeFilter (fun p =>
    if String.prefix "/backups/2020/06/01/" p
    then Some (mkDate 2020 5 1 eq_refl eq_refl)
    else if String.prefix "/backups/2020/06/15/" p
    then Some (mkDate 2020 5 15 eq_refl eq_refl)
    else if String.prefix "/backups/2020/06/20/" p
    then Some (mkDate 2020 5 20 eq_refl eq_refl)
    else None).

Fixpoint ex_afterLastSlash (s acc : string) : string :=
  match s with
  | EmptyString => acc
  | String c s' =>
      if Ascii.eqb c "/" then ex_afterLastSlash s' EmptyString
      else ex_afterLastSlash s' (acc +:+ String c EmptyString)
  end.

Definition ex_basename (p : string) : string := ex_afterLastSlash p EmptyString.

Definition ex_found : list FoundObject :=
  [ mkFound "object" "/backups/2020/06/20/a.log";
    mkFound "object" "/backups/2020/06/01/a.log";
    mkFound "object" "/backups/2020/06/15/a.log" ].

Definition ex_found_undated : FoundObject :=
  mkFound "object" "/backups/README".

Definition ex_heap : gmap loc (list RegExp) := {[ 1%positive := [ex_a_log] ]}.

Definition ex_args (dryrun : bool) : MpruneArgs :=
  mkMpruneArgs (mkArgs MprunePolicyTwiceMonthly 1%positive) dryrun ex_filter.

(** The policy with the objects of the days 1, 3, 15 and 20 of June 2020
    in its tree. *)
Definition ex_state_june : State :=
  set_root {[ 2020%Z := {[ 6 := ex_days_1_3_15_20 ]} ]} (ex_state []).

(** * Properties *)

(** ** Running monadic code *)

Lemma bind_Ok {A B : Type} (m : M A) (f : A -> M B) s a s' :
  m s = (Ok a, s') -> (m ≫= f) s = f a s'.
Proof. intros H. unfold mbind, M_bind. by rewrite H. Qed.

Lemma bind_Err {A B : Type} (m : M A) (f : A -> M B) s e s' :
  m s = (Err e, s') -> (m ≫= f) s = (Err e, s').
Proof. intros H. unfold mbind, M_bind. by rewrite H. Qed.

Lemma forEach_cons {A : Type} (x : A) (l : list A) (f : A -> M unit) :
  forEach (x :: l) f = (f x ;; forEach l f).
Proof. reflexivity. Qed.

Lemma forEach_nil {A : Type} (f : A -> M unit) s : forEach [] f s = (Ok tt, s).
Proof. reflexivity. Qed.

Lemma forEach_app {A : Type} (l1 l2 : list A) (f : A -> M unit) s s' :
  forEach l1 f s = (Ok tt, s') ->
  forEach (l1 ++ l2) f s = forEach l2 f s'.
Proof.
  revert s. induction l1 as [|x l1 IH]; intros s H; simpl in *.
  - by inversion H.
  - unfold mbind, M_bind in *. destruct (f x s) as [[[]|e] s1]; [|done].
    by apply IH.
Qed.

(** ** The loop over the working array *)

(** One pass of the loop for a basename removes every expression that
    matches it, from index [i] on. *)
Lemma spliceLoop_filter bn i regexps :
  spliceLoop bn i regexps =
  take i regexps ++ filter (fun re => test re bn = false) (drop i regexps).
Proof.
  funelim (spliceLoop bn i regexps).
  - (* regexps[i] = re *)
    clear Heqcall.
    match goal with E : _ !! _ = Some _ |- _ => rename E into Hre end.
    pose proof (lookup_lt_Some _ _ _ Hre) as Hlt.
    rewrite (drop_S _ _ _ Hre).
    destruct (test re bn) eqn:Ht.
    + match goal with IH : spliceLoop _ _ (delete _ _) = _ |- _ => rewrite IH end.
      rewrite filter_cons_False by (rewrite Ht; discriminate).
      rewrite delete_take_drop.
      rewrite take_app_length', drop_app_length'; [done | |];
        rewrite length_take; lia.
    + match goal with IH : spliceLoop _ (S _) _ = _ |- _ => rewrite IH end.
      rewrite filter_cons_True by done.
      rewrite (take_S_r _ _ _ Hre), <- app_assoc. done.
  - match goal with E : _ !! _ = None |- _ => rename E into Hre end.
    pose proof (lookup_ge_None_1 _ _ Hre) as Hge. clear Heqcall.
    rewrite take_ge, drop_ge by lia. by rewrite app_nil_r.
Qed.

(** ** [dayIsComplete] *)

Lemma set_heap_id s : set_heap (heap s) s = s.
Proof. by destruct s. Qed.

Lemma forEach_spliceMatching objects r arr s :
  heap s !! r = Some arr ->
  forEach objects (fun o => spliceMatching r (basename o)) s =
  (Ok tt, set_heap (<[r := leftover arr objects]> (heap s)) s).
Proof.
  revert arr s. induction objects as [|o objects IH]; intros arr s Hr; simpl.
  - unfold leftover; simpl. by rewrite insert_id, set_heap_id.
  - unfold mbind, M_bind, spliceMatching at 1, Array_read, modify.
    unfold mbind, M_bind. rewrite Hr.
    rewrite (IH (spliceLoop (basename o) 0 arr)).
    + simpl. by rewrite insert_insert_eq.
    + simpl. apply lookup_insert_eq.
Qed.

Lemma dayIsComplete_run tree which s expect :
  heap s !! mpm_expect s = Some expect ->
  exists h', heap s ⊆ h' /\
    dayIsComplete tree which s =
    (Ok (completeb expect (tree !! which)), set_heap h' s).
Proof.
  intros He. unfold dayIsComplete, completeb.
  destruct (tree !! which) as [objects|].
  2: { exists (heap s). by rewrite set_heap_id. }
  destruct (length objects =? 0) eqn:Hlen; simpl.
  { exists (heap s). by rewrite set_heap_id. }
  unfold mbind, M_bind, gets, Array_length, Array_read, mbind, M_bind.
  rewrite He. unfold mret, M_ret.
  destruct (length expect =? 0) eqn:Hexp.
  { exists (heap s). rewrite set_heap_id.
    apply Nat.eqb_eq, length_zero_iff_nil in Hexp. subst expect.
    do 2 f_equal. clear. unfold leftover.
    induction objects as [|o objects IH]; simpl; [done|].
    by rewrite spliceLoop_filter. }
  unfold Array_slice0, heap_slice0. rewrite He. simpl.
  set (r := fresh (dom (heap s))).
  assert (heap s !! r = None) as Hfresh.
  { apply not_elem_of_dom. apply is_fresh. }
  rewrite (forEach_spliceMatching objects r expect)
    by (simpl; apply lookup_insert_eq).
  simpl. rewrite insert_insert_eq, lookup_insert_eq.
  exists (<[r := leftover expect objects]> (heap s)). split.
  - by apply insert_subseteq.
  - done.
Qed.

(** The working array is emptied exactly when every expected expression
    matches the basename of some object of the day. *)
Lemma leftover_cons expect o objects :
  leftover expect (o :: objects) =
  leftover (filter (fun re => test re (basename o) = false) expect) objects.
Proof. unfold leftover; simpl. by rewrite spliceLoop_filter. Qed.

Lemma leftover_nil_iff expect objects :
  leftover expect objects = [] <->
  forall re, re ∈ expect ->
    exists o, o ∈ objects /\ test re (basename o) = true.
Proof.
  revert expect. induction objects as [|o objects IH]; intros expect.
  - unfold leftover; simpl. split.
    + intros -> re Hre. by apply elem_of_nil in Hre.
    + intros H. destruct expect as [|re expect]; [done|].
      destruct (H re) as (o & Ho & _); [left|].
      by apply elem_of_nil in Ho.
  - rewrite leftover_cons, IH. split.
    + intros H re Hre. destruct (test re (basename o)) eqn:Ht.
      * exists o. split; [left | done].
      * destruct (H re) as (o' & Ho' & Ht').
        { apply list_elem_of_filter. done. }
        exists o'. split; [by right | done].
    + intros H re [Ht Hre]%list_elem_of_filter.
      destruct (H re Hre) as (o' & Ho' & Ht').
      apply elem_of_cons in Ho' as [-> | Ho']; [congruence|].
      by exists o'.
Qed.

Lemma completeb_true_iff expect bucket :
  completeb expect bucket = true <->
  exists objects, bucket = Some objects /\ objects <> [] /\
    forall re, re ∈ expect ->
      exists o, o ∈ objects /\ test re (basename o) = true.
Proof.
  unfold completeb. destruct bucket as [objects|].
  2: { split; [done | by intros (? & ? & _)]. }
  rewrite andb_true_iff, negb_true_iff, Nat.eqb_neq, Nat.eqb_eq.
  rewrite !length_zero_iff_nil, leftover_nil_iff.
  split.
  - intros [??]. by exists objects.
  - intros (? & [= <-] & ? & ?). done.
Qed.

(** ** The scanning loops *)

Lemma scanFrom_range c n d : d <= scanFrom c n d <= d + n.
Proof.
  revert d. induction n as [|n IH]; intros d; simpl; [lia|].
  destruct (c d); [lia|]. specialize (IH (S d)). lia.
Qed.

Lemma scanFrom_found c n d :
  scanFrom c n d < d + n ->
  c (scanFrom c n d) = true /\
  forall i, d <= i < scanFrom c n d -> c i = false.
Proof.
  revert d. induction n as [|n IH]; intros d; simpl; [lia|].
  destruct (c d) eqn:Hc.
  - intros _. split; [done | lia].
  - intros H. destruct (IH (S d)) as [H1 H2]; [lia|].
    split; [done|]. intros i Hi.
    destruct (decide (i = d)) as [->|]; [done|]. apply H2. lia.
Qed.

Lemma scanFrom_none c n d :
  scanFrom c n d = d + n -> forall i, d <= i < d + n -> c i = false.
Proof.
  revert d. induction n as [|n IH]; intros d; simpl; [lia|].
  destruct (c d) eqn:Hc; [lia|].
  intros H i Hi. destruct (decide (i = d)) as [->|]; [done|].
  apply (IH (S d)); lia.
Qed.

Lemma scanFrom_first c n d f :
  d <= f < d + n -> c f = true -> (forall i, d <= i < f -> c i = false) ->
  scanFrom c n d = f.
Proof.
  revert d. induction n as [|n IH]; intros d Hf Hc Hbefore; simpl; [lia|].
  destruct (decide (d = f)) as [->|Hne].
  - by rewrite Hc.
  - rewrite Hbefore by lia. apply IH; [lia | done |].
    intros i Hi. apply Hbefore. lia.
Qed.

Lemma scanDays_run monthtree n d s expect :
  heap s !! mpm_expect s = Some expect ->
  exists h', heap s ⊆ h' /\
    scanDays monthtree n d s =
    (Ok (scanFrom (fun i => completeb expect (monthtree !! i)) n d),
     set_heap h' s).
Proof.
  revert d s. induction n as [|n IH]; intros d s He; simpl.
  - exists (heap s). by rewrite set_heap_id.
  - destruct (dayIsComplete_run monthtree d s expect He) as (h1 & Hsub1 & Hrun).
    rewrite (bind_Ok _ _ _ _ _ Hrun).
    destruct (completeb expect (monthtree !! d)).
    + by exists h1.
    + destruct (IH (S d) (set_heap h1 s)) as (h2 & Hsub2 & Hrun2).
      { simpl. by eapply lookup_weaken. }
      exists h2. split; [by etrans|]. by rewrite Hrun2.
Qed.

(** ** [processMonth] *)

#[local] Arguments scanDays : simpl never.
#[local] Arguments scanFrom : simpl never.

Lemma forEach_emitDecision skip first second i objects s :
  forEach objects (emitDecision skip first second i) s =
  (Ok tt, set_pushed (pushed s ++ map (decisionFor skip first second i) objects) s).
Proof.
  revert s. induction objects as [|o objects IH]; intros s; simpl.
  - rewrite app_nil_r. by destruct s.
  - assert (emitDecision skip first second i o s =
            (Ok tt, set_pushed (pushed s ++ [decisionFor skip first second i o]) s))
      as Hone.
    { unfold emitDecision, decisionFor.
      destruct skip; [done|]. by destruct ((i =? first) || (i =? second)). }
    rewrite (bind_Ok _ _ _ _ _ Hone), IH. simpl.
    by rewrite <- app_assoc.
Qed.

Lemma forEach_days skip first second (monthtree : MonthTree) days s :
  (forall d objects, d ∈ days -> monthtree !! d = Some objects -> objects <> []) ->
  forEach days (fun i =>
    match monthtree !! i with
    | None => mret tt
    | Some objects =>
        assert_ok (0 <? length objects) ;;
        forEach objects (emitDecision skip first second i)
    end) s =
  (Ok tt,
   set_pushed (pushed s ++
     flat_map (fun i => map (decisionFor skip first second i)
                            (default [] (monthtree !! i))) days) s).
Proof.
  revert s. induction days as [|d days IH]; intros s Hne; simpl.
  - rewrite app_nil_r. by destruct s.
  - unfold mbind at 1, M_bind at 1.
    destruct (monthtree !! d) as [objects|] eqn:Hd; simpl.
    + assert ((0 <? length objects) = true) as ->.
      { apply Nat.ltb_lt. destruct objects; [|simpl; lia].
        exfalso. eapply Hne; [left | done | done]. }
      simpl. unfold mbind at 1, M_bind at 1. simpl.
      rewrite forEach_emitDecision, IH.
      * simpl. by rewrite <- app_assoc.
      * intros d' objs' Hin. apply Hne. by right.
    + rewrite IH; [done|]. intros d' objs' Hin. apply Hne. by right.
Qed.

#[local] Arguments forEach : simpl never.
#[local] Arguments seq : simpl never.

Lemma processMonth_run label (monthtree : MonthTree) s expect :
  heap s !! mpm_expect s = Some expect ->
  (forall d objects, monthtree !! d = Some objects -> objects <> []) ->
  let c := fun i => completeb expect (monthtree !! i) in
  let first := scanFrom c 14 1 in
  let second := scanFrom c 17 15 in
  let skip := (first =? 15) || (second =? 32) in
  exists h', heap s ⊆ h' /\
    processMonth label monthtree s =
    (Ok tt,
     mkState h' (mpm_root s) (mpm_expect s)
       (pushed s ++ monthDecisions skip first second monthtree)
       (ended s)
       (warned s ++ monthWarnings label first second)).
Proof.
  intros He Hne c first second skip.
  unfold processMonth, firstCompleteDay.
  change (15 - 1) with 14. change (32 - 15) with 17.
  destruct (scanDays_run monthtree 14 1 s expect He) as (h1 & Hsub1 & Hrun1).
  rewrite (bind_Ok _ _ _ _ _ Hrun1). fold c first.
  pose proof (scanFrom_range c 14 1) as Hr1. fold first in Hr1.
  pose proof (scanFrom_range c 17 15) as Hr2. fold second in Hr2.
  set (w1 := if first =? 15
             then [mkWarning (VError (label +:+ ": no valid objects found in days 1-14"))
                             "nerr_missing"] else []).
  set (s1 := set_warned (warned s ++ w1) (set_heap h1 s)).
  assert (heap s1 !! mpm_expect s1 = Some expect) as He1.
  { simpl. by eapply lookup_weaken. }
  destruct (scanDays_run monthtree 17 15 s1 expect He1) as (h2 & Hsub2 & Hrun2).
  fold c second in Hrun2.
  exists h2. split; [simpl in Hsub2; by etrans|].
  unfold monthWarnings, monthDecisions. fold skip. fold w1.
  destruct s as [h root e p en w]. simpl in *.
  subst skip w1 s1.
  destruct (first =? 15) eqn:E1; simpl in *.
  - unfold mbind, M_bind, vsWarn, modify, mret, M_ret; simpl.
    rewrite Hrun2; simpl.
    destruct (second =? 32) eqn:E2; simpl.
    + rewrite (forEach_days true first second monthtree (seq 0 32))
        by (intros; eauto).
      simpl. by rewrite <- ?app_assoc, ?app_nil_r.
    + rewrite (forEach_days true first second monthtree (seq 0 32))
        by (intros; eauto).
      simpl. by rewrite <- ?app_assoc, ?app_nil_r.
  - rewrite app_nil_r in Hrun2.
    unfold set_warned, set_heap in Hrun2; simpl in Hrun2.
    unfold mbind, M_bind, vsWarn, modify, mret, M_ret, set_heap; simpl.
    rewrite Hrun2; simpl.
    apply Nat.eqb_neq in E1.
    destruct (second =? 32) eqn:E2; simpl.
    + rewrite (forEach_days true first second monthtree (seq 0 32))
        by (intros; eauto).
      simpl. by rewrite <- ?app_assoc, ?app_nil_r.
    + apply Nat.eqb_neq in E2.
      assert ((first =? second) = false) as -> by (apply Nat.eqb_neq; lia).
      destruct (first =? 1), (second =? 15); simpl;
        rewrite (forEach_days false first second monthtree (seq 0 32))
          by (intros; eauto);
        simpl; by rewrite <- ?app_assoc, ?app_nil_r.
Qed.

(** ** What [dayIsComplete] decides *)

Lemma complete_iff s (monthtree : MonthTree) d expect :
  heap s !! mpm_expect s = Some expect ->
  complete s monthtree d <-> completeb expect (monthtree !! d) = true.
Proof.
  intros He. unfold complete.
  destruct (dayIsComplete_run monthtree d s expect He) as (h' & _ & ->).
  simpl. split; [by intros [= ->] | by intros ->].
Qed.


(** C1, as the specification states it, fails: one object named [a.log]
    and the expected list [[/a\.log/, /a\.log/]] make [dayIsComplete]
    return [true], while removing one expression per basename leaves one
    expression in the working copy. *)
Lemma dayIsComplete_one_basename_two_patterns :
  (dayIsComplete ex_one_object 1 (ex_state [ex_a_log; ex_a_log])).1 = Ok true /\
  spec_completeOneToOne [ex_a_log; ex_a_log]
    [ex_object "/backups/2020/06/01/a.log" 1 eq_refl] = false.
Proof. split; vm_compute; reflexivity. Qed.

(** C1, amended: [dayIsComplete] returns [true] exactly when the day has
    an array of objects, the array is not empty, and every expected
    expression matches the basename of at least one of the objects; a
    basename removes every expression it matches from the working copy, so
    one object can satisfy several expressions. *)
Theorem dayIsComplete_every_pattern_matched
    (tree : MonthTree) (which : nat) (s : State) (expect : list RegExp)
    (He : heap s !! mpm_expect s = Some expect) :
  exists b s',
    dayIsComplete tree which s = (Ok b, s') /\
    (b = true <->
     exists objects, tree !! which = Some objects /\ objects <> [] /\
       forall re, re ∈ expect ->
         exists o, o ∈ objects /\ test re (basename o) = true).
Proof.
  destruct (dayIsComplete_run tree which s expect He) as (h' & _ & Hrun).
  eexists _, _. split; [exact Hrun|]. apply completeb_true_iff.
Qed.

Lemma dayIsComplete_every_pattern_matched_witness :
  exists b s',
    dayIsComplete ex_one_object 1 (ex_state [ex_a_log; ex_a_log]) = (Ok b, s') /\
    (b = true <->
     exists objects, ex_one_object !! 1 = Some objects /\ objects <> [] /\
       forall re, re ∈ [ex_a_log; ex_a_log] ->
         exists o, o ∈ objects /\ test re (basename o) = true).
Proof.
  apply (dayIsComplete_every_pattern_matched ex_one_object 1
           (ex_state [ex_a_log; ex_a_log]) [ex_a_log; ex_a_log]).
  vm_compute. reflexivity.
Defined.

(** C7: with an empty expected list, [dayIsComplete] returns [true] for a
    day whose array is present and not empty, and [false] for a day that is
    absent or whose array is empty. *)
Theorem dayIsComplete_empty_expect
    (tree : MonthTree) (which : nat) (s : State)
    (He : heap s !! mpm_expect s = Some []) :
  (forall objects, tree !! which = Some objects -> objects <> [] ->
     dayIsComplete tree which s = (Ok true, s)) /\
  (tree !! which = None \/ tree !! which = Some [] ->
     dayIsComplete tree which s = (Ok false, s)).
Proof.
  split.
  - intros objects Hd Hne. unfold dayIsComplete. rewrite Hd.
    destruct objects as [|o objects]; [done|]. simpl.
    unfold mbind, M_bind, gets, Array_length, Array_read, mbind, M_bind.
    by rewrite He.
  - intros [Hd | Hd]; unfold dayIsComplete; by rewrite Hd.
Qed.

Lemma dayIsComplete_empty_expect_witness :
  dayIsComplete ex_one_object 1 (ex_state []) = (Ok true, ex_state []) /\
  dayIsComplete ex_one_object 2 (ex_state []) = (Ok false, ex_state []).
Proof.
  assert (heap (ex_state []) !! mpm_expect (ex_state []) = Some []) as He.
  { vm_compute. reflexivity. }
  split.
  - apply (proj1 (dayIsComplete_empty_expect ex_one_object 1 (ex_state []) He)
             [ex_object "/backups/2020/06/01/a.log" 1 eq_refl]).
    + vm_compute. reflexivity.
    + discriminate.
  - apply (proj2 (dayIsComplete_empty_expect ex_one_object 2 (ex_state []) He)).
    left. vm_compute. reflexivity.
Defined.

(** ** Keep-days *)

Section keep_days.

Variables (s : State) (monthtree : MonthTree) (expect : list RegExp).
Hypothesis He : heap s !! mpm_expect s = Some expect.

Let c := fun i => completeb expect (monthtree !! i).

Lemma not_complete_iff d : ~ complete s monthtree d <-> c d = false.
Proof using He.
  rewrite (complete_iff s monthtree d expect He). unfold c.
  destruct (completeb expect (monthtree !! d)); naive_solver.
Qed.

Lemma firstKeepDay_scan f : isFirstKeepDay s monthtree f -> scanFrom c 14 1 = f.
Proof using He.
  intros (Hr & Hc & Hbefore). apply scanFrom_first; [lia | |].
  - by apply (complete_iff s monthtree f expect He).
  - intros i Hi. apply not_complete_iff, Hbefore. lia.
Qed.

Lemma secondKeepDay_scan g : isSecondKeepDay s monthtree g -> scanFrom c 17 15 = g.
Proof using He.
  intros (Hr & Hc & Hbefore). apply scanFrom_first; [lia | |].
  - by apply (complete_iff s monthtree g expect He).
  - intros i Hi. apply not_complete_iff, Hbefore. lia.
Qed.

Lemma scan_isFirstKeepDay :
  scanFrom c 14 1 <> 15 -> isFirstKeepDay s monthtree (scanFrom c 14 1).
Proof using He.
  intros Hne. pose proof (scanFrom_range c 14 1) as Hr.
  destruct (scanFrom_found c 14 1) as [Hc Hbefore]; [lia|].
  split; [lia|]. split.
  - by apply (complete_iff s monthtree _ expect He).
  - intros d Hd. apply not_complete_iff, Hbefore. lia.
Qed.

Lemma scan_isSecondKeepDay :
  scanFrom c 17 15 <> 32 -> isSecondKeepDay s monthtree (scanFrom c 17 15).
Proof using He.
  intros Hne. pose proof (scanFrom_range c 17 15) as Hr.
  destruct (scanFrom_found c 17 15) as [Hc Hbefore]; [lia|].
  split; [lia|]. split.
  - by apply (complete_iff s monthtree _ expect He).
  - intros d Hd. apply not_complete_iff, Hbefore. lia.
Qed.

Lemma nondegraded_scan :
  nondegraded s monthtree -> scanFrom c 14 1 <> 15 /\ scanFrom c 17 15 <> 32.
Proof using He.
  intros [(d1 & Hd1 & Hc1) (d2 & Hd2 & Hc2)]. split; intros Hscan.
  - apply (scanFrom_none c 14 1) with (i := d1) in Hscan; [|lia].
    by apply not_complete_iff in Hscan.
  - apply (scanFrom_none c 17 15) with (i := d2) in Hscan; [|lia].
    by apply not_complete_iff in Hscan.
Qed.

Lemma degraded_scan :
  degraded s monthtree -> (scanFrom c 14 1 =? 15) || (scanFrom c 17 15 =? 32) = true.
Proof using He.
  intros Hdeg. apply orb_true_iff. rewrite !Nat.eqb_eq.
  destruct Hdeg as [Hnone | Hnone]; [left | right].
  - destruct (decide (scanFrom c 14 1 = 15)) as [|Hne]; [done|].
    destruct (scan_isFirstKeepDay Hne) as (Hr & Hc & _).
    by destruct (Hnone _ Hr).
  - destruct (decide (scanFrom c 17 15 = 32)) as [|Hne]; [done|].
    destruct (scan_isSecondKeepDay Hne) as (Hr & Hc & _).
    by destruct (Hnone _ Hr).
Qed.

Lemma firstCompleteDay_first :
  (firstCompleteDay monthtree 1 15 s).1 = Ok (scanFrom c 14 1).
Proof using He.
  unfold firstCompleteDay. change (15 - 1) with 14.
  by destruct (scanDays_run monthtree 14 1 s expect He) as (h' & _ & ->).
Qed.

Lemma firstCompleteDay_second :
  (firstCompleteDay monthtree 15 32 s).1 = Ok (scanFrom c 17 15).
Proof using He.
  unfold firstCompleteDay. change (32 - 15) with 17.
  by destruct (scanDays_run monthtree 17 15 s expect He) as (h' & _ & ->).
Qed.

End keep_days.

(** ** The decisions of a month *)

Lemma elem_of_monthDecisions skip first second (monthtree : MonthTree) dec :
  MonthTree_wf monthtree ->
  dec ∈ monthDecisions skip first second monthtree <->
  exists d objects o,
    monthtree !! d = Some objects /\ o ∈ objects /\
    dec = decisionFor skip first second d o.
Proof.
  intros Hwf. unfold monthDecisions.
  rewrite list_elem_of_In, in_flat_map. split.
  - intros (d & Hd & Hin). apply in_map_iff in Hin as (o & <- & Ho).
    destruct (monthtree !! d) as [objects|] eqn:Hlook; [|done].
    exists d, objects, o. by rewrite list_elem_of_In.
  - intros (d & objects & o & Hlook & Ho & ->).
    exists d. split.
    + apply in_seq. destruct (Hwf d objects Hlook). lia.
    + rewrite Hlook. simpl. apply in_map. by apply list_elem_of_In.
Qed.

Lemma monthDecisions_paths skip first second (monthtree : MonthTree) :
  map d_path (monthDecisions skip first second monthtree) =
  map path (monthObjects monthtree).
Proof.
  unfold monthDecisions, monthObjects.
  induction (seq 0 32) as [|i l IH]; [done|].
  cbn [flat_map]. rewrite !map_app, IH. f_equal.
  rewrite map_map. apply map_ext. intros o. unfold decisionFor.
  destruct skip; [done|]. by destruct ((i =? first) || (i =? second)).
Qed.

(** C3: in a month one of whose halves (days 1-14, days 15-31) has no
    complete day, [processMonth] pushes, for every object of every day of
    the month, a [skip] decision whose reason is "could not determine which
    objects to keep in this month", and pushes no [remove] decision. *)
Theorem degraded_month_is_skipped
    (label : string) (monthtree : MonthTree) (s : State) (expect : list RegExp)
    (He : heap s !! mpm_expect s = Some expect)
    (Hwf : MonthTree_wf monthtree)
    (Hdeg : degraded s monthtree) :
  exists s' ds,
    processMonth label monthtree s = (Ok tt, s') /\
    pushed s' = pushed s ++ ds /\
    ds = map (fun o => mkDecision "skip" (path o)
                (Some "could not determine which objects to keep in this month"))
             (monthObjects monthtree) /\
    (forall d objects o,
       monthtree !! d = Some objects -> o ∈ objects ->
       mkDecision "skip" (path o)
         (Some "could not determine which objects to keep in this month") ∈ ds) /\
    (forall dec, dec ∈ ds ->
       d_type dec = "skip" /\
       d_reason dec =
         Some "could not determine which objects to keep in this month") /\
    (forall dec, dec ∈ ds -> d_type dec <> "remove").
Proof.
  destruct (processMonth_run label monthtree s expect He) as (h' & _ & Hrun).
  { intros d objects Hd. by destruct (Hwf d objects Hd). }
  rewrite (degraded_scan s monthtree expect He Hdeg) in Hrun.
  eexists _, _. split; [exact Hrun|]. split; [done|].
  assert (forall dec f g, dec ∈ monthDecisions true f g monthtree <->
            exists d objects o, monthtree !! d = Some objects /\ o ∈ objects /\
              dec = mkDecision "skip" (path o) (Some reason_undetermined))
    as Hin.
  { intros dec f g. by rewrite elem_of_monthDecisions. }
  split; [|split; [|split]].
  - unfold monthDecisions, monthObjects.
    induction (seq 0 32) as [|i l IH]; [done|].
    cbn [flat_map]. by rewrite map_app, IH.
  - intros d objects o Hd Ho. apply Hin. by exists d, objects, o.
  - intros dec (d & objects & o & _ & _ & ->)%Hin. done.
  - intros dec (d & objects & o & _ & _ & ->)%Hin. done.
Qed.

(** Month trees and keep-days of concrete months. *)
Lemma MonthTree_wf_empty : MonthTree_wf ∅.
Proof. intros d objects Hd. by rewrite lookup_empty in Hd. Qed.

Lemma MonthTree_wf_insert d objects (monthtree : MonthTree) :
  d <= 31 -> objects <> [] -> MonthTree_wf monthtree ->
  MonthTree_wf (<[d := objects]> monthtree).
Proof.
  intros Hd Hne Hwf d' objects' Hlook.
  apply lookup_insert_Some in Hlook as [[<- <-] | [_ Hlook]]; [done|].
  by apply Hwf.
Qed.

Ltac solve_MonthTree_wf :=
  repeat (apply MonthTree_wf_insert; [lia | done |]);
  apply MonthTree_wf_empty.

Lemma scan_degraded s (monthtree : MonthTree) expect :
  heap s !! mpm_expect s = Some expect ->
  let c := fun i => completeb expect (monthtree !! i) in
  (scanFrom c 14 1 =? 15) || (scanFrom c 17 15 =? 32) = true ->
  degraded s monthtree.
Proof.
  intros He c [H | H]%orb_true_iff; apply Nat.eqb_eq in H; [left | right].
  - intros d Hd. apply (not_complete_iff s monthtree expect He).
    apply (scanFrom_none c 14 1); [done | lia].
  - intros d Hd. apply (not_complete_iff s monthtree expect He).
    apply (scanFrom_none c 17 15); [done | lia].
Qed.

Lemma scan_keepDays s (monthtree : MonthTree) expect f g :
  heap s !! mpm_expect s = Some expect ->
  let c := fun i => completeb expect (monthtree !! i) in
  scanFrom c 14 1 = f -> scanFrom c 17 15 = g -> f <> 15 -> g <> 32 ->
  isFirstKeepDay s monthtree f /\ isSecondKeepDay s monthtree g.
Proof.
  intros He c <- <- Hf Hg. split.
  - by apply (scan_isFirstKeepDay s monthtree expect He).
  - by apply (scan_isSecondKeepDay s monthtree expect He).
Qed.

Lemma keepDays_nondegraded s (monthtree : MonthTree) f g :
  isFirstKeepDay s monthtree f -> isSecondKeepDay s monthtree g ->
  nondegraded s monthtree.
Proof. intros (? & ? & _) (? & ? & _). split; eauto. Qed.

Lemma degraded_month_is_skipped_witness :
  exists s',
    processMonth "2020-06" ex_days_20_25 (ex_state []) = (Ok tt, s') /\
    pushed s' =
      [ mkDecision "skip" "/backups/2020/06/20/a.log"
          (Some "could not determine which objects to keep in this month");
        mkDecision "skip" "/backups/2020/06/25/a.log"
          (Some "could not determine which objects to keep in this month") ].
Proof.
  destruct (degraded_month_is_skipped "2020-06" ex_days_20_25 (ex_state []) [])
    as (s' & ds & Hrun & Hpushed & Hds & _).
  - vm_compute. reflexivity.
  - solve_MonthTree_wf.
  - apply (scan_degraded _ _ []); vm_compute; reflexivity.
  - exists s'. split; [exact Hrun|]. rewrite Hpushed, Hds.
    vm_compute. reflexivity.
Defined.

(** C4: in a month each of whose halves has a complete day, the loops of
    [processMonth] stop at a first keep-day among the days 1..14 and at a
    second keep-day among the days 15..31; the two differ, the assertion
    [skip || first != second] holds ([processMonth] returns normally), and
    the [remove] decisions pushed are exactly those for the objects of the
    days of the month other than the two keep-days, whose objects get
    [skip] with reason "designated for keeping". *)
Theorem keep_days_disjoint
    (label : string) (monthtree : MonthTree) (s : State) (expect : list RegExp)
    (He : heap s !! mpm_expect s = Some expect)
    (Hwf : MonthTree_wf monthtree)
    (Hnd : nondegraded s monthtree) :
  exists f g,
    (firstCompleteDay monthtree 1 15 s).1 = Ok f /\
    (firstCompleteDay monthtree 15 32 s).1 = Ok g /\
    isFirstKeepDay s monthtree f /\ isSecondKeepDay s monthtree g /\
    1 <= f <= 14 /\ 15 <= g <= 31 /\ f <> g /\
    exists s' ds,
      processMonth label monthtree s = (Ok tt, s') /\
      pushed s' = pushed s ++ ds /\
      (forall dec,
         dec ∈ ds /\ d_type dec = "remove" <->
         exists d objects o,
           monthtree !! d = Some objects /\ o ∈ objects /\
           d <> f /\ d <> g /\ dec = mkDecision "remove" (path o) None) /\
      (forall d objects o,
         monthtree !! d = Some objects -> o ∈ objects -> d = f \/ d = g ->
         mkDecision "skip" (path o) (Some "designated for keeping") ∈ ds).
Proof.
  set (c := fun i => completeb expect (monthtree !! i)).
  destruct (nondegraded_scan s monthtree expect He Hnd) as [Hf Hg].
  fold c in Hf, Hg.
  pose proof (scan_isFirstKeepDay s monthtree expect He Hf) as Hfirst.
  pose proof (scan_isSecondKeepDay s monthtree expect He Hg) as Hsecond.
  fold c in Hfirst, Hsecond.
  exists (scanFrom c 14 1), (scanFrom c 17 15).
  split; [apply (firstCompleteDay_first s monthtree expect He)|].
  split; [apply (firstCompleteDay_second s monthtree expect He)|].
  split; [done|]. split; [done|].
  destruct Hfirst as (Hr1 & _), Hsecond as (Hr2 & _).
  split; [done|]. split; [done|]. split; [lia|].
  destruct (processMonth_run label monthtree s expect He) as (h' & _ & Hrun).
  { intros d objects Hd. by destruct (Hwf d objects Hd). }
  fold c in Hrun.
  apply Nat.eqb_neq in Hf, Hg. rewrite Hf, Hg in Hrun. simpl in Hrun.
  eexists _, _. split; [exact Hrun|]. split; [done|]. split.
  - intros dec. rewrite (elem_of_monthDecisions _ _ _ _ _ Hwf). split.
    + intros [(d & objects & o & Hd & Ho & ->) Hty].
      exists d, objects, o. unfold decisionFor in *.
      destruct (d =? scanFrom c 14 1) eqn:E1; [done|].
      destruct (d =? scanFrom c 17 15) eqn:E2; [done|].
      apply Nat.eqb_neq in E1, E2. done.
    + intros (d & objects & o & Hd & Ho & Hn1 & Hn2 & ->).
      split; [|done]. exists d, objects, o.
      split; [done|]. split; [done|]. unfold decisionFor.
      apply Nat.eqb_neq in Hn1, Hn2. by rewrite Hn1, Hn2.
  - intros d objects o Hd Ho Hkeep.
    apply (elem_of_monthDecisions _ _ _ _ _ Hwf).
    exists d, objects, o. split; [done|]. split; [done|].
    unfold decisionFor.
    assert ((d =? scanFrom c 14 1) || (d =? scanFrom c 17 15) = true) as ->; [|done].
    apply orb_true_iff. rewrite !Nat.eqb_eq. done.
Qed.

Lemma keep_days_disjoint_witness :
  exists s' ds,
    processMonth "2020-06" ex_days_1_3_15_20 (ex_state []) = (Ok tt, s') /\
    pushed s' = ds /\
    mkDecision "remove" "/backups/2020/06/03/a.log" None ∈ ds /\
    mkDecision "skip" "/backups/2020/06/15/a.log"
      (Some "designated for keeping") ∈ ds.
Proof.
  destruct (keep_days_disjoint "2020-06" ex_days_1_3_15_20 (ex_state []) [])
    as (f & g & Hf & Hg & _ & _ & _ & _ & _ & s' & ds & Hrun & Hpushed & Hrm & Hkeep).
  - vm_compute. reflexivity.
  - solve_MonthTree_wf.
  - apply (keepDays_nondegraded _ _ 1 15);
      apply (scan_keepDays _ _ [] 1 15); vm_compute; (reflexivity || lia).
  - vm_compute in Hf. vm_compute in Hg.
    injection Hf as <-. injection Hg as <-.
    exists s', ds. split; [exact Hrun|]. split; [exact Hpushed|]. split.
    + apply (Hrm (mkDecision "remove" "/backups/2020/06/03/a.log" None)).
      exists 3, [ex_object "/backups/2020/06/03/a.log" 3 eq_refl],
        (ex_object "/backups/2020/06/03/a.log" 3 eq_refl).
      split; [vm_compute; reflexivity|]. split; [left|].
      split; [lia|]. split; [lia|]. reflexivity.
    + apply (Hkeep 15 [ex_object "/backups/2020/06/15/a.log" 15 eq_refl]
               (ex_object "/backups/2020/06/15/a.log" 15 eq_refl)).
      * vm_compute. reflexivity.
      * left.
      * right. reflexivity.
Defined.

(** C8: in a month that is not degraded, with first keep-day [f] and second
    keep-day [g], [processMonth] emits a warning of kind [nwarn_noday1]
    exactly when [f] is not 1, and a warning of kind [nwarn_noday2] exactly
    when [g] is not 15, each whatever the other keep-day is; and the
    decisions pushed are those of the keep-days alone: [skip] "designated
    for keeping" for the objects of the days [f] and [g], [remove] for the
    others, whether or not a warning was emitted. *)
Theorem deviation_warnings
    (label : string) (monthtree : MonthTree) (s : State) (expect : list RegExp)
    (f g : nat)
    (He : heap s !! mpm_expect s = Some expect)
    (Hwf : MonthTree_wf monthtree)
    (Hf : isFirstKeepDay s monthtree f)
    (Hg : isSecondKeepDay s monthtree g) :
  exists s' ws,
    processMonth label monthtree s = (Ok tt, s') /\
    warned s' = warned s ++ ws /\
    ((exists e, mkWarning e "nwarn_noday1" ∈ ws) <-> f <> 1) /\
    ((exists e, mkWarning e "nwarn_noday2" ∈ ws) <-> g <> 15) /\
    pushed s' = pushed s ++
      flat_map (fun d =>
        map (fun o =>
               if bool_decide (d = f \/ d = g)
               then mkDecision "skip" (path o) (Some "designated for keeping")
               else mkDecision "remove" (path o) None)
            (default [] (monthtree !! d))) (seq 0 32).
Proof.
  destruct (processMonth_run label monthtree s expect He) as (h' & _ & Hrun).
  { intros d objects Hd. by destruct (Hwf d objects Hd). }
  rewrite (firstKeepDay_scan s monthtree expect He f Hf) in Hrun.
  rewrite (secondKeepDay_scan s monthtree expect He g Hg) in Hrun.
  destruct Hf as (Hrf & _), Hg as (Hrg & _).
  assert ((f =? 15) = false) as E1 by (apply Nat.eqb_neq; lia).
  assert ((g =? 32) = false) as E2 by (apply Nat.eqb_neq; lia).
  rewrite E1, E2 in Hrun. simpl in Hrun.
  eexists _, _. split; [exact Hrun|]. split; [done|].
  unfold monthWarnings. rewrite E1, E2. cbn [orb negb andb app].
  split; [|split].
  - destruct (f =? 1) eqn:Ef; simpl.
    + apply Nat.eqb_eq in Ef. split; [|done].
      intros [e He']. destruct (g =? 15); simpl in He'.
      * by apply elem_of_nil in He'.
      * apply list_elem_of_singleton in He'. discriminate.
    + apply Nat.eqb_neq in Ef. split; [done|]. intros _.
      eexists. left.
  - destruct (g =? 15) eqn:Eg; simpl.
    + apply Nat.eqb_eq in Eg. split; [|done].
      intros [e He']. destruct (f =? 1); simpl in He'.
      * by apply elem_of_nil in He'.
      * apply list_elem_of_singleton in He'. discriminate.
    + apply Nat.eqb_neq in Eg. split; [done|]. intros _.
      eexists. destruct (f =? 1); simpl; [left | right; left].
  - cbn [pushed]. f_equal. unfold monthDecisions. apply flat_map_ext. intros d.
    apply map_ext. intros o. unfold decisionFor.
    destruct (d =? f) eqn:Edf, (d =? g) eqn:Edg; simpl;
      rewrite ?Nat.eqb_eq, ?Nat.eqb_neq in *.
    + rewrite bool_decide_eq_true_2; [done | by left].
    + rewrite bool_decide_eq_true_2; [done | by left].
    + rewrite bool_decide_eq_true_2; [done | by right].
    + rewrite bool_decide_eq_false_2; [done | by intros [?|?]].
Qed.

Lemma deviation_warnings_witness :
  exists s' ws,
    processMonth "2020-06" ex_days_5_20 (ex_state []) = (Ok tt, s') /\
    warned s' = ws /\
    ((exists e, mkWarning e "nwarn_noday1" ∈ ws) <-> 5 <> 1) /\
    ((exists e, mkWarning e "nwarn_noday2" ∈ ws) <-> 20 <> 15) /\
    pushed s' =
      [ mkDecision "skip" "/backups/2020/06/05/a.log" (Some "designated for keeping");
        mkDecision "skip" "/backups/2020/06/20/a.log" (Some "designated for keeping") ].
Proof.
  destruct (deviation_warnings "2020-06" ex_days_5_20 (ex_state []) [] 5 20)
    as (s' & ws & Hrun & Hwarned & H1 & H2 & Hpushed).
  - vm_compute. reflexivity.
  - solve_MonthTree_wf.
  - apply (scan_keepDays _ _ [] 5 20); vm_compute; (reflexivity || lia).
  - apply (scan_keepDays _ _ [] 5 20); vm_compute; (reflexivity || lia).
  - exists s', ws. split; [exact Hrun|]. split; [exact Hwarned|].
    split; [exact H1|]. split; [exact H2|]. rewrite Hpushed.
    vm_compute. reflexivity.
Defined.

(** C10: in a month that is not degraded and whose second keep-day is not
    day 15, the warning of kind [nwarn_noday2] carries the message
    "<label>: missing objects from day 1", the very text of the
    [nwarn_noday1] warning: it names day 1, not day 15. *)
Theorem noday2_message_names_day_1
    (label : string) (monthtree : MonthTree) (s : State) (expect : list RegExp)
    (f g : nat)
    (He : heap s !! mpm_expect s = Some expect)
    (Hwf : MonthTree_wf monthtree)
    (Hf : isFirstKeepDay s monthtree f)
    (Hg : isSecondKeepDay s monthtree g)
    (Hg15 : g <> 15) :
  exists s' ws,
    processMonth label monthtree s = (Ok tt, s') /\
    warned s' = warned s ++ ws /\
    mkWarning (VError (label +:+ ": missing objects from day 1")) "nwarn_noday2" ∈ ws /\
    (forall e, mkWarning e "nwarn_noday2" ∈ ws ->
       e = VError (label +:+ ": missing objects from day 1")) /\
    (forall e, mkWarning e "nwarn_noday1" ∈ ws ->
       e = VError (label +:+ ": missing objects from day 1")).
Proof.
  destruct (processMonth_run label monthtree s expect He) as (h' & _ & Hrun).
  { intros d objects Hd. by destruct (Hwf d objects Hd). }
  rewrite (firstKeepDay_scan s monthtree expect He f Hf) in Hrun.
  rewrite (secondKeepDay_scan s monthtree expect He g Hg) in Hrun.
  destruct Hf as (Hrf & _), Hg as (Hrg & _).
  eexists _, _. split; [exact Hrun|]. split; [done|].
  unfold monthWarnings.
  assert ((f =? 15) = false) as -> by (apply Nat.eqb_neq; lia).
  assert ((g =? 32) = false) as -> by (apply Nat.eqb_neq; lia).
  assert ((g =? 15) = false) as -> by (by apply Nat.eqb_neq).
  cbn [orb negb andb app].
  destruct (f =? 1); cbn [negb app]; split; [|split| |split].
  - left.
  - by intros e [= ->]%list_elem_of_singleton.
  - by intros e ?%list_elem_of_singleton.
  - right; left.
  - intros e [?|[= ->]%list_elem_of_singleton]%elem_of_cons; done.
  - intros e [[= ->]|?%list_elem_of_singleton]%elem_of_cons; done.
Qed.

Lemma noday2_message_names_day_1_witness :
  exists s' ws,
    processMonth "2020-06" ex_days_5_20 (ex_state []) = (Ok tt, s') /\
    warned s' = ws /\
    mkWarning (VError "2020-06: missing objects from day 1") "nwarn_noday2" ∈ ws.
Proof.
  destruct (noday2_message_names_day_1 "2020-06" ex_days_5_20 (ex_state []) [] 5 20)
    as (s' & ws & Hrun & Hwarned & Hin & _).
  - vm_compute. reflexivity.
  - solve_MonthTree_wf.
  - apply (scan_keepDays _ _ [] 5 20); vm_compute; (reflexivity || lia).
  - apply (scan_keepDays _ _ [] 5 20); vm_compute; (reflexivity || lia).
  - lia.
  - exists s', ws. split; [exact Hrun|]. split; [exact Hwarned|]. exact Hin.
Defined.

(** ** [policyForName] *)

Lemma ascii_toLowerCase_toUpperCase c :
  ascii_toLowerCase (ascii_toUpperCase c) = ascii_toLowerCase c.
Proof. destruct c as [[] [] [] [] [] [] [] []]; reflexivity. Qed.

Lemma case_variant_toLowerCase s t :
  case_variant s t -> toLowerCase s = toLowerCase t.
Proof.
  induction 1 as [| c s t _ IH | c s t _ IH]; simpl.
  - done.
  - by rewrite IH.
  - by rewrite IH, ascii_toLowerCase_toUpperCase.
Qed.

Lemma mpPolicies_lookup t :
  mpPolicies !! t =
  if decide (t = "twicemonthly") then Some MprunePolicyTwiceMonthly else None.
Proof.
  unfold mpPolicies. destruct (decide (t = "twicemonthly")) as [->|Hne].
  - apply lookup_singleton_eq.
  - by apply lookup_singleton_ne.
Qed.

(** C6: a name whose lowercasing is not a key of [mpPolicies] gets the
    error "unsupported policy: <name>", with the name as it was given;
    every spelling of "twicemonthly" with some letters in upper case gets
    the constructor [MprunePolicyTwiceMonthly]; and nothing else does. *)
Theorem policyForName_lookup (name : string) :
  (mpPolicies !! toLowerCase name = None ->
   policyForName name = inl (VError ("unsupported policy: " +:+ name))) /\
  (case_variant name "twicemonthly" ->
   policyForName name = inr MprunePolicyTwiceMonthly) /\
  (policyForName name = inr MprunePolicyTwiceMonthly <->
   toLowerCase name = "twicemonthly").
Proof.
  unfold policyForName. split; [|split].
  - by intros ->.
  - intros Hv. apply case_variant_toLowerCase in Hv.
    rewrite Hv, mpPolicies_lookup. done.
  - rewrite mpPolicies_lookup.
    destruct (decide (toLowerCase name = "twicemonthly")); split; done.
Qed.

Ltac solve_case_variant :=
  repeat first
    [ apply case_variant_nil
    | apply case_variant_same
    | match goal with
      | |- case_variant (String _ _) (String ?c _) =>
          apply (case_variant_upper c)
      end ].

Lemma policyForName_lookup_witness :
  policyForName "weekly" = inl (VError "unsupported policy: weekly") /\
  policyForName "TwiceMonthly" = inr MprunePolicyTwiceMonthly /\
  policyForName "TWICEMONTHLY" = inr MprunePolicyTwiceMonthly.
Proof.
  split; [|split].
  - apply (proj1 (policyForName_lookup "weekly")). vm_compute. reflexivity.
  - apply (proj1 (proj2 (policyForName_lookup "TwiceMonthly"))).
    solve_case_variant.
  - apply (proj1 (proj2 (policyForName_lookup "TWICEMONTHLY"))).
    solve_case_variant.
Defined.

(** ** [_transform] *)

(** C5: [_transform] on an object whose [start] is [null] hands the stream
    the error "found entry not under a particular time bucket: <path>" and
    leaves the state as it was: the tree does not get the object and
    nothing is pushed.  A run in which such an object is written after
    objects with dates fails with that error in the state the earlier
    objects left: [_flush] does not run and no decision at all is
    pushed. *)
Theorem null_timestamp_is_fatal
    (obj : ObjectRecord) (before after : list ObjectRecord) (s : State)
    (Hnull : start obj = None)
    (Hbefore : Forall (fun o => start o <> None) before) :
  _transform obj s =
    (Err (VError ("found entry not under a particular time bucket: " +:+ path obj)),
     s) /\
  exists s',
    forEach before _transform s = (Ok tt, s') /\
    runPolicy (before ++ obj :: after) s =
      (Err (VError ("found entry not under a particular time bucket: " +:+ path obj)),
       s') /\
    pushed s' = pushed s /\ ended s' = ended s /\ warned s' = warned s.
Proof.
  assert (_transform obj s =
    (Err (VError ("found entry not under a particular time bucket: " +:+ path obj)),
     s)) as Hone.
  { unfold _transform. by rewrite Hnull. }
  split; [exact Hone|].
  assert (forall s0, exists s',
    forEach before _transform s0 = (Ok tt, s') /\
    pushed s' = pushed s0 /\ ended s' = ended s0 /\ warned s' = warned s0)
    as Hingest.
  { clear Hone. induction Hbefore as [|o before Ho _ IH]; intros s0.
    - by exists s0.
    - unfold forEach; fold (@forEach ObjectRecord).
      unfold mbind at 1, M_bind at 1.
      unfold _transform at 1. destruct (start o) as [when|]; [|done].
      unfold mbind, M_bind, gets, modify.
      match goal with |- context [set_root ?r s0] =>
        destruct (IH (set_root r s0)) as (s' & Hrun & Hp & Hen & Hw) end.
      exists s'. by rewrite Hrun. }
  destruct (Hingest s) as (s' & Hrun & Hp & Hen & Hw).
  exists s'. split; [exact Hrun|]. split; [|done].
  unfold runPolicy.
  assert (forEach (before ++ obj :: after) _transform s =
    (Err (VError ("found entry not under a particular time bucket: " +:+ path obj)),
     s')) as Hfail.
  { rewrite (forEach_app _ _ _ _ _ Hrun).
    unfold forEach; fold (@forEach ObjectRecord).
    apply (bind_Err _ _ _ _ _ ). unfold _transform. by rewrite Hnull. }
  by rewrite (bind_Err _ _ _ _ _ Hfail).
Qed.

(** ** [_flush] *)

(** A loop each of whose steps pushes and warns, and only adds arrays to
    the heap, pushes and warns what the steps do, in order. *)
Lemma forEach_run {A : Type} (f : A -> M unit)
    (D : A -> list DecisionRecord) (W : A -> list Warning) (P : A -> Prop)
    (expect : list RegExp) (l : list A) :
  (forall x s, P x -> heap s !! mpm_expect s = Some expect ->
     exists h', heap s ⊆ h' /\
       f x s = (Ok tt, mkState h' (mpm_root s) (mpm_expect s)
                         (pushed s ++ D x) (ended s) (warned s ++ W x))) ->
  Forall P l ->
  forall s, heap s !! mpm_expect s = Some expect ->
    exists h', heap s ⊆ h' /\
      forEach l f s = (Ok tt, mkState h' (mpm_root s) (mpm_expect s)
                         (pushed s ++ flat_map D l) (ended s)
                         (warned s ++ flat_map W l)).
Proof.
  intros Hstep HP. induction HP as [|x l Hx _ IH]; intros s He.
  - exists (heap s). split; [done|]. rewrite forEach_nil. cbn [flat_map].
    rewrite !app_nil_r. by destruct s.
  - destruct (Hstep x s Hx He) as (h1 & Hsub1 & Hrun1).
    rewrite forEach_cons. cbn [flat_map]. rewrite (bind_Ok _ _ _ _ _ Hrun1).
    match goal with |- context [forEach l f ?s1] =>
      destruct (IH s1) as (h2 & Hsub2 & Hrun2) end.
    { cbn [heap mpm_expect]. by eapply lookup_weaken. }
    exists h2. split; [cbn [heap] in Hsub2; by etrans|].
    rewrite Hrun2. cbn [heap mpm_root mpm_expect pushed ended warned].
    by rewrite <- !app_assoc.
Qed.

Lemma processMonth_run' label (monthtree : MonthTree) s expect :
  (forall d objects, monthtree !! d = Some objects -> objects <> []) ->
  heap s !! mpm_expect s = Some expect ->
  exists h', heap s ⊆ h' /\
    processMonth label monthtree s =
    (Ok tt, mkState h' (mpm_root s) (mpm_expect s)
              (pushed s ++ processMonth_pushed expect monthtree) (ended s)
              (warned s ++ processMonth_warned expect label monthtree)).
Proof. intros Hne He. by apply processMonth_run. Qed.

Lemma flush_run s expect :
  heap s !! mpm_expect s = Some expect ->
  RootTree_nonempty (mpm_root s) ->
  exists h', heap s ⊆ h' /\
    _flush s =
    (Ok tt, mkState h' (mpm_root s) (mpm_expect s)
              (pushed s ++ flush_pushed expect (mpm_root s)) true
              (warned s ++ flush_warned expect (mpm_root s))).
Proof.
  intros He Hne. unfold _flush.
  rewrite (bind_Ok (gets mpm_root) _ s (mpm_root s) s eq_refl).
  unfold forEachKey at 1.
  destruct (forEach_run
    (fun kv : Z * YearTree =>
       forEachKey kv.2 (fun month monthtree =>
         processMonth (monthLabel kv.1 month) monthtree))
    (fun yt : Z * YearTree =>
       flat_map (fun mt : nat * MonthTree => processMonth_pushed expect mt.2)
                (map_to_list yt.2))
    (fun yt : Z * YearTree =>
       flat_map (fun mt : nat * MonthTree =>
                   processMonth_warned expect (monthLabel yt.1 mt.1) mt.2)
                (map_to_list yt.2))
    (fun yt : Z * YearTree => mpm_root s !! yt.1 = Some yt.2)
    expect (map_to_list (mpm_root s))) with (s := s)
    as (h' & Hsub & Hrun); [| |done|].
  - intros [y yeartree] s1 Hy He1. cbn [fst snd] in *. unfold forEachKey.
    apply (forEach_run
      (fun kv : nat * MonthTree => processMonth (monthLabel y kv.1) kv.2)
      (fun mt : nat * MonthTree => processMonth_pushed expect mt.2)
      (fun mt : nat * MonthTree => processMonth_warned expect (monthLabel y mt.1) mt.2)
      (fun mt : nat * MonthTree => yeartree !! mt.1 = Some mt.2)
      expect (map_to_list yeartree)); [| |done].
    + intros [m monthtree] s2 Hm He2. cbn [fst snd] in *.
      apply processMonth_run'; [|done].
      intros d objects Hd. by eapply Hne.
    + apply Forall_forall. intros [m monthtree] Hin.
      by apply elem_of_map_to_list in Hin.
  - apply Forall_forall. intros [y yeartree] Hin.
    by apply elem_of_map_to_list in Hin.
  - exists h'. split; [done|].
    cbv beta. cbn [fst snd] in Hrun.
    rewrite (bind_Ok _ _ _ _ _ Hrun). done.
Qed.

(** ** Ingestion *)

Lemma transform_dated obj when s :
  start obj = Some when ->
  _transform obj s = (Ok tt, set_root (rootInsert when obj (mpm_root s)) s).
Proof. intros Hs. unfold _transform. by rewrite Hs. Qed.

Lemma rootInsert_all (P : nat -> list ObjectRecord -> Prop) when obj
    (root : RootTree) :
  (forall b, P (getUTCDate when) (b ++ [obj])) ->
  (forall y (yeartree : YearTree) m (monthtree : MonthTree) d objects,
     root !! y = Some yeartree -> yeartree !! m = Some monthtree ->
     monthtree !! d = Some objects -> P d objects) ->
  forall y (yeartree : YearTree) m (monthtree : MonthTree) d objects,
    rootInsert when obj root !! y = Some yeartree ->
    yeartree !! m = Some monthtree ->
    monthtree !! d = Some objects -> P d objects.
Proof.
  intros Hnew Hold y yeartree m monthtree d objects.
  unfold rootInsert.
  intros [[<- <-] | [Hy Hyt]]%lookup_insert_Some; [|by eauto].
  intros [[<- <-] | [Hm Hmt]]%lookup_insert_Some.
  - intros [[<- <-] | [Hd Hobjs]]%lookup_insert_Some; [done|].
    destruct (root !! getUTCFullYear when) as [yt|] eqn:Hyt; simpl in *.
    + destruct (yt !! (getUTCMonth when + 1)) as [mt|] eqn:Hmt; simpl in *.
      * by eapply Hold.
      * by rewrite lookup_empty in Hobjs.
    + by rewrite lookup_empty in Hobjs.
  - intros Hd.
    destruct (root !! getUTCFullYear when) as [yt|] eqn:Hyt; simpl in *.
    + by eapply Hold.
    + by rewrite lookup_empty in Hmt.
Qed.

Lemma rootInsert_nonempty when obj root :
  RootTree_nonempty root -> RootTree_nonempty (rootInsert when obj root).
Proof.
  intros Hne y yeartree m monthtree d objects Hy Hm Hlook.
  refine (rootInsert_all (fun _ objects => objects <> []) when obj root
            _ Hne y yeartree m monthtree d objects Hy Hm Hlook).
  intros b. by destruct b.
Qed.

Lemma rootInsert_wf when obj root :
  getUTCDate when <= 31 ->
  RootTree_wf root -> RootTree_wf (rootInsert when obj root).
Proof.
  intros Hd Hwf y yeartree m monthtree Hy Hm d objects Hlook.
  refine (rootInsert_all (fun d objects => d <= 31 /\ objects <> []) when obj root
            _ _ y yeartree m monthtree d objects Hy Hm Hlook).
  - intros b. split; [done | by destruct b].
  - intros y' yeartree' m' monthtree' d' objects' Hy' Hm' Hlook'.
    by apply (Hwf y' yeartree' m' monthtree' Hy' Hm').
Qed.

Lemma RootTree_wf_nonempty root : RootTree_wf root -> RootTree_nonempty root.
Proof.
  intros Hwf y yeartree m monthtree d objects Hy Hm Hd.
  by destruct (Hwf y yeartree m monthtree Hy Hm d objects Hd).
Qed.

(** The objects of the tree after an insertion. *)
Lemma flat_map_days_insert (monthtree : MonthTree) d obj days :
  NoDup days ->
  let b := default [] (monthtree !! d) in
  flat_map (fun i => default [] (<[d := b ++ [obj]]> monthtree !! i)) days ≡ₚ
  (if bool_decide (d ∈ days) then [obj] else []) ++
  flat_map (fun i => default [] (monthtree !! i)) days.
Proof.
  intros Hnd b. induction Hnd as [|i days Hi Hnd IH]; [done|].
  cbn [flat_map]. rewrite IH. clear IH.
  destruct (decide (d = i)) as [->|Hne].
  - rewrite lookup_insert_eq. cbn [default].
    rewrite (bool_decide_eq_false_2 (i ∈ days)) by done.
    rewrite bool_decide_eq_true_2 by left.
    subst b. unfold id. cbn [app]. rewrite <- app_assoc. cbn [app].
    symmetry. apply Permutation_middle.
  - rewrite lookup_insert_ne by done.
    destruct (decide (d ∈ days)) as [Hin|Hnin].
    + rewrite !bool_decide_eq_true_2; [|by right|done].
      cbn [app]. symmetry. apply Permutation_middle.
    + rewrite !bool_decide_eq_false_2; [done| |done].
      intros [?|?]%elem_of_cons; done.
Qed.

Lemma monthObjects_insert (monthtree : MonthTree) d obj :
  d <= 31 ->
  monthObjects (<[d := default [] (monthtree !! d) ++ [obj]]> monthtree) ≡ₚ
  obj :: monthObjects monthtree.
Proof.
  intros Hd. unfold monthObjects.
  rewrite (flat_map_days_insert monthtree d obj (seq 0 32)) by apply NoDup_seq.
  rewrite bool_decide_eq_true_2; [done|]. apply elem_of_seq. lia.
Qed.

Lemma flat_map_insert_perm `{Countable K} {V A : Type}
    (g : V -> list A) (m : gmap K V) (k : K) (v' v0 : V) (x : A) :
  g v0 = [] ->
  g v' ≡ₚ x :: g (default v0 (m !! k)) ->
  flat_map (fun kv : K * V => g kv.2) (map_to_list (<[k := v']> m)) ≡ₚ
  x :: flat_map (fun kv : K * V => g kv.2) (map_to_list m).
Proof.
  intros Hg0 Hg.
  destruct (m !! k) as [v|] eqn:Hk; cbn [default] in Hg.
  - rewrite <- (insert_delete_eq m k v').
    rewrite map_to_list_insert by apply lookup_delete_eq.
    rewrite <- (map_to_list_delete m k v Hk).
    cbn [flat_map snd]. rewrite Hg. done.
  - rewrite map_to_list_insert by done.
    cbn [flat_map snd]. rewrite Hg, Hg0. done.
Qed.

Lemma rootInsert_objects when obj root :
  getUTCDate when <= 31 ->
  rootObjects (rootInsert when obj root) ≡ₚ obj :: rootObjects root.
Proof.
  intros Hd. unfold rootObjects, rootInsert.
  apply (flat_map_insert_perm
    (fun yt : YearTree =>
       flat_map (fun mt : nat * MonthTree => monthObjects mt.2) (map_to_list yt))
    root (getUTCFullYear when) _ ∅ obj).
  { by rewrite map_to_list_empty. }
  apply (flat_map_insert_perm monthObjects _ (getUTCMonth when + 1) _ ∅ obj).
  { unfold monthObjects. induction (seq 0 32) as [|i l IH]; [done|].
    cbn [flat_map]. by rewrite lookup_empty, IH. }
  by apply monthObjects_insert.
Qed.

Lemma Date_range (when : Date) :
  getUTCMonth when < 12 /\ 1 <= getUTCDate when <= 31.
Proof.
  pose proof (getUTCMonth_range when) as Hm.
  pose proof (getUTCDate_range when) as Hd.
  apply Nat.ltb_lt in Hm. apply andb_true_iff in Hd as [H1 H2].
  apply Nat.leb_le in H1, H2. lia.
Qed.

Lemma ingest_run objs s :
  Forall (fun o => start o <> None) objs ->
  RootTree_wf (mpm_root s) ->
  exists root',
    forEach objs _transform s = (Ok tt, set_root root' s) /\
    RootTree_wf root' /\
    rootObjects root' ≡ₚ rootObjects (mpm_root s) ++ objs.
Proof.
  intros Hdated. revert s.
  induction Hdated as [|o objs Hstart _ IH]; intros s Hwf.
  - exists (mpm_root s). rewrite forEach_nil, app_nil_r. by destruct s.
  - destruct (start o) as [when|] eqn:Hwhen; [clear Hstart | done].
    rename Hwhen into Hstart.
    destruct (Date_range when) as [_ [_ Hday]].
    rewrite forEach_cons.
    rewrite (bind_Ok _ _ _ _ _ (transform_dated o when s Hstart)).
    destruct (IH (set_root (rootInsert when o (mpm_root s)) s))
      as (root' & Hrun & Hwf' & Hobjs).
    { by apply rootInsert_wf. }
    exists root'. split; [by rewrite Hrun|]. split; [done|].
    rewrite Hobjs. cbn [mpm_root set_root].
    rewrite rootInsert_objects by done.
    by rewrite <- Permutation_middle.
Qed.

Lemma flush_pushed_paths expect root :
  map d_path (flush_pushed expect root) = map path (rootObjects root).
Proof.
  unfold flush_pushed, rootObjects.
  induction (map_to_list root) as [|[y yeartree] l IH]; [done|].
  cbn [flat_map snd]. rewrite !map_app, IH. f_equal. clear IH.
  induction (map_to_list yeartree) as [|[m monthtree] l' IH']; [done|].
  cbn [flat_map snd]. rewrite !map_app, IH'. f_equal.
  apply monthDecisions_paths.
Qed.

Lemma RootTree_wf_empty : RootTree_wf ∅.
Proof. intros y yeartree m monthtree Hy. by rewrite lookup_empty in Hy. Qed.

(** C2: a run over objects that all have a date pushes exactly one
    decision for each object written: as many decisions as objects, and
    the paths of the decisions are the paths of the objects, each as often
    as it was written. *)
Theorem accounting_is_total
    (objs : list ObjectRecord) (s : State) (expect : list RegExp)
    (He : heap s !! mpm_expect s = Some expect)
    (Hroot : mpm_root s = ∅)
    (Hdated : Forall (fun o => start o <> None) objs) :
  exists s' ds,
    runPolicy objs s = (Ok tt, s') /\
    pushed s' = pushed s ++ ds /\
    ended s' = true /\
    length ds = length objs /\
    map d_path ds ≡ₚ map path objs.
Proof.
  destruct (ingest_run objs s Hdated) as (root' & Hrun & Hwf & Hobjs).
  { rewrite Hroot. apply RootTree_wf_empty. }
  rewrite Hroot in Hobjs. unfold rootObjects at 2 in Hobjs.
  rewrite map_to_list_empty in Hobjs. cbn [flat_map app] in Hobjs.
  destruct (flush_run (set_root root' s) expect) as (h' & _ & Hflush).
  { done. }
  { cbn [mpm_root set_root]. by apply RootTree_wf_nonempty. }
  unfold runPolicy. rewrite (bind_Ok _ _ _ _ _ Hrun), Hflush.
  eexists _, _. split; [done|].
  cbn [pushed ended mpm_root set_root].
  split; [done|]. split; [done|].
  assert (map d_path (flush_pushed expect root') ≡ₚ map path objs) as Hperm.
  { rewrite flush_pushed_paths. by apply Permutation_map. }
  split; [|done].
  apply Permutation_length in Hperm. by rewrite !length_map in Hperm.
Qed.


Lemma accounting_is_total_witness :
  exists s' ds,
    runPolicy ex_objects (ex_state [ex_a_log]) = (Ok tt, s') /\
    pushed s' = ds /\
    length ds = 4 /\
    map d_path ds ≡ₚ map path ex_objects.
Proof.
  destruct (accounting_is_total ex_objects (ex_state [ex_a_log]) [ex_a_log])
    as (s' & ds & Hrun & Hpushed & _ & Hlen & Hperm).
  - vm_compute. reflexivity.
  - reflexivity.
  - repeat constructor; discriminate.
  - exists s', ds. split; [exact Hrun|]. split; [exact Hpushed|].
    split; [exact Hlen | exact Hperm].
Defined.

Lemma null_timestamp_is_fatal_witness :
  exists s',
    runPolicy (ex_objects ++ ex_undated :: ex_objects) (ex_state []) =
      (Err (VError "found entry not under a particular time bucket: /backups/README"),
       s') /\
    pushed s' = [].
Proof.
  destruct (null_timestamp_is_fatal ex_undated ex_objects ex_objects (ex_state []))
    as (_ & s' & _ & Hrun & Hpushed & _).
  - reflexivity.
  - repeat constructor; discriminate.
  - exists s'. split; [exact Hrun | exact Hpushed].
Defined.

(** ** The expected list and its aliases *)

Lemma transform_same_policy obj s1 s2 :
  same_policy s1 s2 ->
  exists r s1' s2',
    _transform obj s1 = (r, s1') /\ _transform obj s2 = (r, s2') /\
    same_policy s1' s2' /\
    heap s1' = heap s1 /\ mpm_expect s1' = mpm_expect s1 /\
    (RootTree_nonempty (mpm_root s1) -> RootTree_nonempty (mpm_root s1')).
Proof.
  intros (Hroot & He & Hp & Hen & Hw & Hh). unfold _transform.
  destruct (start obj) as [when|].
  - unfold mbind, M_bind, gets, modify. rewrite Hroot.
    eexists _, _, _. split; [done|]. split; [done|].
    split; [by repeat split|]. split; [done|]. split; [done|].
    cbn [mpm_root set_root]. rewrite <- Hroot. apply rootInsert_nonempty.
  - eexists _, _, _. split; [done|]. split; [done|].
    split; [by repeat split|]. done.
Qed.

Lemma written_Written obj evs : written (Written obj :: evs) = obj :: written evs.
Proof. reflexivity. Qed.

Lemma written_CallerAssigns arr evs :
  written (CallerAssigns arr :: evs) = written evs.
Proof. reflexivity. Qed.

Lemma steps_same_policy p evs s1 s2 :
  same_policy s1 s2 -> p <> mpm_expect s1 ->
  exists r s1' s2',
    forEach evs (step p) s1 = (r, s1') /\
    forEach (written evs) _transform s2 = (r, s2') /\
    same_policy s1' s2' /\
    mpm_expect s1' = mpm_expect s1 /\
    heap s1' !! mpm_expect s1 = heap s1 !! mpm_expect s1 /\
    (RootTree_nonempty (mpm_root s1) -> RootTree_nonempty (mpm_root s1')).
Proof.
  revert s1 s2. induction evs as [|ev evs IH]; intros s1 s2 Hsame Hpe.
  - exists (Ok tt), s1, s2. by rewrite !forEach_nil.
  - rewrite forEach_cons. destruct ev as [obj | arr]; cbn [step].
    + rewrite written_Written, forEach_cons.
      destruct (transform_same_policy obj s1 s2 Hsame)
        as (r & s1' & s2' & Hr1 & Hr2 & Hsame' & Hheap & He' & Hne').
      destruct r as [[]|e].
      * rewrite (bind_Ok _ _ _ _ _ Hr1), (bind_Ok _ _ _ _ _ Hr2).
        destruct (IH s1' s2' Hsame') as
          (r & s1'' & s2'' & Hrun1 & Hrun2 & Hsame'' & He'' & Hheap'' & Hne'').
        { by rewrite He'. }
        exists r, s1'', s2''. split; [done|]. split; [done|].
        split; [done|]. split; [congruence|].
        split; [by rewrite <- He', Hheap'', Hheap | auto].
      * rewrite (bind_Err _ _ _ _ _ Hr1), (bind_Err _ _ _ _ _ Hr2).
        exists (Err e), s1', s2'. split; [done|]. split; [done|].
        split; [done|]. split; [done|]. split; [by rewrite Hheap | done].
    + rewrite written_CallerAssigns.
      unfold mbind at 1, M_bind at 1, modify.
      set (s1' := set_heap (<[p := arr]> (heap s1)) s1).
      destruct Hsame as (Hroot & He & Hp & Hen & Hw & Hh).
      destruct (IH s1' s2) as
        (r & s1'' & s2'' & Hrun1 & Hrun2 & Hsame'' & He'' & Hheap'' & Hne'').
      { repeat split; try done. cbn [s1' heap mpm_expect set_heap].
        by rewrite lookup_insert_ne. }
      { done. }
      exists r, s1'', s2''. split; [done|]. split; [done|].
      split; [done|]. split; [done|]. split; [|done].
      cbn [s1' mpm_expect heap set_heap] in Hheap''.
      by rewrite lookup_insert_ne in Hheap''.
Qed.

Lemma flush_same_policy s1 s2 expect :
  same_policy s1 s2 ->
  heap s1 !! mpm_expect s1 = Some expect ->
  RootTree_nonempty (mpm_root s1) ->
  exists s1' s2',
    _flush s1 = (Ok tt, s1') /\ _flush s2 = (Ok tt, s2') /\
    pushed s1' = pushed s2' /\ warned s1' = warned s2' /\
    ended s1' = ended s2'.
Proof.
  intros (Hroot & He & Hp & Hen & Hw & Hh) He1 Hne.
  destruct (flush_run s1 expect He1 Hne) as (h1 & _ & ->).
  destruct (flush_run s2 expect) as (h2 & _ & ->).
  { by rewrite <- Hh. }
  { by rewrite <- Hroot. }
  eexists _, _. split; [done|]. split; [done|].
  cbn [pushed warned ended]. by rewrite Hroot, Hp, Hw.
Qed.

Lemma same_policy_refl s : same_policy s s.
Proof. by repeat split. Qed.

Lemma runPolicyWith_written p evs s expect :
  heap s !! mpm_expect s = Some expect -> p <> mpm_expect s ->
  RootTree_nonempty (mpm_root s) ->
  exists r s1 s2,
    runPolicyWith p evs s = (r, s1) /\
    runPolicy (written evs) s = (r, s2) /\
    pushed s1 = pushed s2 /\ warned s1 = warned s2 /\ ended s1 = ended s2.
Proof.
  intros He Hpe Hne.
  destruct (steps_same_policy p evs s s (same_policy_refl s))
    as (r & s1 & s2 & Hrun1 & Hrun2 & Hsame & He' & Hheap & Hne'); [done|].
  unfold runPolicyWith, runPolicy.
  destruct r as [[]|err].
  - rewrite (bind_Ok _ _ _ _ _ Hrun1), (bind_Ok _ _ _ _ _ Hrun2).
    destruct (flush_same_policy s1 s2 expect Hsame)
      as (s1' & s2' & Hf1 & Hf2 & Hout); [by rewrite He', Hheap | auto |].
    by exists (Ok tt), s1', s2'.
  - rewrite (bind_Err _ _ _ _ _ Hrun1), (bind_Err _ _ _ _ _ Hrun2).
    destruct Hsame as (_ & _ & ? & ? & ? & _).
    by exists (Err err), s1, s2.
Qed.

(** C9: the constructor stores a copy of the caller's array, at a fresh
    location; two runs over the same objects that differ only in what the
    caller assigns to its own array afterwards, and when, give the same
    result, the same decisions and the same warnings, which are those of
    the run without any assignment; [dayIsComplete] answers the same after
    such an assignment; and [dayIsComplete] leaves every array that existed
    before the call as it was, the stored expected list among them: it only
    adds its working copy to the heap. *)
Theorem expect_noninterference
    (h : gmap loc (list RegExp)) (p : loc) (arr : list RegExp)
    (Hp : h !! p = Some arr) :
  exists s0,
    MpruneOperation (mkArgs MprunePolicyTwiceMonthly p) h = Ok s0 /\
    mpm_expect s0 <> p /\
    heap s0 !! mpm_expect s0 = Some arr /\
    heap s0 !! p = Some arr /\
    (forall evs1 evs2, written evs1 = written evs2 ->
       exists r s1 s2,
         runPolicyWith p evs1 s0 = (r, s1) /\
         runPolicyWith p evs2 s0 = (r, s2) /\
         pushed s1 = pushed s2 /\ warned s1 = warned s2 /\
         ended s1 = ended s2) /\
    (forall evs, exists r s1 s2,
       runPolicyWith p evs s0 = (r, s1) /\
       runPolicy (written evs) s0 = (r, s2) /\
       pushed s1 = pushed s2 /\ warned s1 = warned s2 /\
       ended s1 = ended s2) /\
    (forall (tree : MonthTree) which s expect arr',
       heap s !! mpm_expect s = Some expect -> p <> mpm_expect s ->
       (dayIsComplete tree which (set_heap (<[p := arr']> (heap s)) s)).1 =
       (dayIsComplete tree which s).1) /\
    (forall (tree : MonthTree) which s expect,
       heap s !! mpm_expect s = Some expect ->
       exists b s',
         dayIsComplete tree which s = (Ok b, s') /\
         heap s ⊆ heap s' /\
         mpm_expect s' = mpm_expect s /\
         heap s' !! mpm_expect s' = Some expect).
Proof.
  unfold MpruneOperation, heap_slice0. cbn [p_expect p_policy].
  rewrite Hp. cbn [mbind option_bind].
  set (e := fresh (dom h)).
  assert (h !! e = None) as Hfresh by (apply not_elem_of_dom, is_fresh).
  assert (e <> p) as Hep by (intros ->; congruence).
  eexists. split; [done|]. cbn [mpm_expect heap].
  split; [done|]. split; [apply lookup_insert_eq|].
  split; [by rewrite lookup_insert_ne|].
  set (s0 := mkState (<[e:=arr]> h) ∅ e [] false []).
  assert (forall evs, exists r s1 s2,
            runPolicyWith p evs s0 = (r, s1) /\
            runPolicy (written evs) s0 = (r, s2) /\
            pushed s1 = pushed s2 /\ warned s1 = warned s2 /\
            ended s1 = ended s2) as Hbase.
  { intros evs. apply (runPolicyWith_written p evs s0 arr).
    - apply lookup_insert_eq.
    - done.
    - intros y yeartree m monthtree d objects Hy.
      cbn [s0 mpm_root] in Hy. by rewrite lookup_empty in Hy. }
  split; [|split; [exact Hbase|split]].
  - intros evs1 evs2 Hw.
    destruct (Hbase evs1) as (r1 & s1 & t1 & Hr1 & Hb1 & Hp1 & Hw1 & He1).
    destruct (Hbase evs2) as (r2 & s2 & t2 & Hr2 & Hb2 & Hp2 & Hw2 & He2).
    rewrite Hw, Hb2 in Hb1. injection Hb1 as <- <-.
    exists r2, s1, s2. split; [done|]. split; [done|].
    split; [congruence|]. split; congruence.
  - intros tree which s expect arr' He Hpe.
    destruct (dayIsComplete_run tree which s expect He) as (h1 & _ & ->).
    destruct (dayIsComplete_run tree which
                (set_heap (<[p := arr']> (heap s)) s) expect)
      as (h2 & _ & ->); [|done].
    cbn [heap mpm_expect set_heap]. by rewrite lookup_insert_ne.
  - intros tree which s expect He.
    destruct (dayIsComplete_run tree which s expect He) as (h1 & Hsub & ->).
    eexists _, _. split; [done|]. cbn [heap mpm_expect set_heap].
    split; [done|]. split; [done|]. by eapply lookup_weaken.
Qed.

Lemma expect_noninterference_witness :
  exists s0 r s1 s2,
    MpruneOperation (mkArgs MprunePolicyTwiceMonthly 1%positive)
      {[ 1%positive := [ex_a_log] ]} = Ok s0 /\
    runPolicyWith 1%positive
      [ Written (ex_object "/backups/2020/06/01/a.log" 1 eq_refl);
        CallerAssigns [];
        Written (ex_object "/backups/2020/06/15/a.log" 15 eq_refl);
        CallerAssigns [ex_a_log; ex_a_log; ex_a_log] ] s0 = (r, s1) /\
    runPolicy
      [ ex_object "/backups/2020/06/01/a.log" 1 eq_refl;
        ex_object "/backups/2020/06/15/a.log" 15 eq_refl ] s0 = (r, s2) /\
    pushed s1 = pushed s2 /\ warned s1 = warned s2.
Proof.
  destruct (expect_noninterference {[ 1%positive := [ex_a_log] ]} 1%positive
              [ex_a_log])
    as (s0 & Hnew & _ & _ & _ & _ & Hruns & _).
  - vm_compute. reflexivity.
  - destruct (Hruns
      [ Written (ex_object "/backups/2020/06/01/a.log" 1 eq_refl);
        CallerAssigns [];
        Written (ex_object "/backups/2020/06/15/a.log" 15 eq_refl);
        CallerAssigns [ex_a_log; ex_a_log; ex_a_log] ])
      as (r & s1 & s2 & Hrun1 & Hrun2 & Hpushed & Hwarned & _).
    exists s0, r, s1, s2. split; [exact Hnew|]. split; [exact Hrun1|].
    split; [exact Hrun2|]. split; [exact Hpushed | exact Hwarned].
Defined.

(** * Further properties of the code *)

(** ** The loop of [dayIsComplete] *)

(** X1: one pass of the loop over the working array, for one basename,
    leaves exactly the expressions that do not match the basename, in their
    order; a second pass for the same basename changes nothing. *)
Theorem spliceLoop_removes_exactly_matching (bn : string) (regexps : list RegExp) :
  spliceLoop bn 0 regexps = filter (fun re => test re bn = false) regexps /\
  (forall re, re ∈ spliceLoop bn 0 regexps <-> re ∈ regexps /\ test re bn = false) /\
  sublist (spliceLoop bn 0 regexps) regexps /\
  spliceLoop bn 0 (spliceLoop bn 0 regexps) = spliceLoop bn 0 regexps.
Proof.
  assert (forall l, spliceLoop bn 0 l = filter (fun re => test re bn = false) l)
    as Hf by (intros l; by rewrite spliceLoop_filter).
  split; [apply Hf|]. split; [|split].
  - intros re. rewrite Hf, list_elem_of_filter. tauto.
  - rewrite Hf. apply sublist_filter.
  - rewrite !Hf. induction regexps as [|re regexps IH]; [done|].
    destruct (test re bn) eqn:Ht.
    + rewrite filter_cons_False by (rewrite Ht; discriminate). exact IH.
    + rewrite filter_cons_True by done. rewrite filter_cons_True by done.
      by rewrite IH.
Qed.

(** X2: a complete day stays complete when objects are added to it and
    when expected expressions are dropped; so the answer of [dayIsComplete]
    depends neither on the order of the objects of the day nor on the order
    or the repetition of the expected expressions. *)
Theorem dayIsComplete_monotone
    (tree1 tree2 : MonthTree) (d : nat) (s1 s2 : State)
    (expect1 expect2 : list RegExp) (objects1 objects2 : list ObjectRecord)
    (He1 : heap s1 !! mpm_expect s1 = Some expect1)
    (He2 : heap s2 !! mpm_expect s2 = Some expect2)
    (Hd1 : tree1 !! d = Some objects1)
    (Hd2 : tree2 !! d = Some objects2)
    (Hobjects : forall o, o ∈ objects1 -> o ∈ objects2)
    (Hexpect : forall re, re ∈ expect2 -> re ∈ expect1)
    (Hcomplete : (dayIsComplete tree1 d s1).1 = Ok true) :
  (dayIsComplete tree2 d s2).1 = Ok true.
Proof.
  apply (complete_iff s1 tree1 d expect1 He1) in Hcomplete.
  apply (complete_iff s2 tree2 d expect2 He2).
  apply completeb_true_iff in Hcomplete as (objs & Hlook & Hne & Hall).
  rewrite Hd1 in Hlook. injection Hlook as <-.
  apply completeb_true_iff. exists objects2. split; [done|]. split.
  - destruct objects1 as [|o objects1]; [done|].
    intros ->. specialize (Hobjects o). rewrite elem_of_nil in Hobjects.
    apply Hobjects. left.
  - intros re Hre. destruct (Hall re (Hexpect re Hre)) as (o & Ho & Ht).
    exists o. split; [by apply Hobjects | done].
Qed.

Lemma dayIsComplete_monotone_witness :
  (dayIsComplete ex_days_1_3_15_20 1 (ex_state [ex_a_log])).1 = Ok true.
Proof.
  apply (dayIsComplete_monotone ex_one_object ex_days_1_3_15_20 1
           (ex_state [ex_a_log; ex_a_log]) (ex_state [ex_a_log])
           [ex_a_log; ex_a_log] [ex_a_log]
           [ex_object "/backups/2020/06/01/a.log" 1 eq_refl]
           [ex_object "/backups/2020/06/01/a.log" 1 eq_refl]).
  - vm_compute. reflexivity.
  - vm_compute. reflexivity.
  - vm_compute. reflexivity.
  - vm_compute. reflexivity.
  - intros o Ho. exact Ho.
  - intros re Hre. apply list_elem_of_singleton in Hre. subst re. left.
  - vm_compute. reflexivity.
Defined.

(** ** [processMonth] on any month *)

Lemma scan_first_none_iff s (monthtree : MonthTree) expect :
  heap s !! mpm_expect s = Some expect ->
  keepFirst expect monthtree = 15 <->
  forall d, 1 <= d <= 14 -> ~ complete s monthtree d.
Proof.
  intros He. unfold keepFirst. split.
  - intros Hscan d Hd. apply (not_complete_iff s monthtree expect He).
    apply (scanFrom_none (fun i => completeb expect (monthtree !! i)) 14 1);
      [done | lia].
  - intros Hnone.
    destruct (decide (scanFrom (fun i => completeb expect (monthtree !! i)) 14 1 = 15))
      as [|Hne]; [done|].
    destruct (scan_isFirstKeepDay s monthtree expect He Hne) as (Hr & Hc & _).
    by destruct (Hnone _ Hr).
Qed.

Lemma scan_second_none_iff s (monthtree : MonthTree) expect :
  heap s !! mpm_expect s = Some expect ->
  keepSecond expect monthtree = 32 <->
  forall d, 15 <= d <= 31 -> ~ complete s monthtree d.
Proof.
  intros He. unfold keepSecond. split.
  - intros Hscan d Hd. apply (not_complete_iff s monthtree expect He).
    apply (scanFrom_none (fun i => completeb expect (monthtree !! i)) 17 15);
      [done | lia].
  - intros Hnone.
    destruct (decide (scanFrom (fun i => completeb expect (monthtree !! i)) 17 15 = 32))
      as [|Hne]; [done|].
    destruct (scan_isSecondKeepDay s monthtree expect He Hne) as (Hr & Hc & _).
    by destruct (Hnone _ Hr).
Qed.

(** X3: on a month none of whose arrays is empty, degraded or not,
    [processMonth] returns normally and pushes exactly one decision for each
    object of the days 0..31, by ascending day and, within a day, in the
    order in which the objects arrived; it changes neither the tree nor the
    end-of-stream flag. *)
Theorem processMonth_decisions_in_day_order
    (label : string) (monthtree : MonthTree) (s : State) (expect : list RegExp)
    (He : heap s !! mpm_expect s = Some expect)
    (Hne : forall d objects, monthtree !! d = Some objects -> objects <> []) :
  exists s' ds,
    processMonth label monthtree s = (Ok tt, s') /\
    pushed s' = pushed s ++ ds /\
    map d_path ds = map path (monthObjects monthtree) /\
    length ds = length (monthObjects monthtree) /\
    mpm_root s' = mpm_root s /\ ended s' = ended s /\
    mpm_expect s' = mpm_expect s.
Proof.
  destruct (processMonth_run label monthtree s expect He Hne) as (h' & _ & Hrun).
  eexists _, _. split; [exact Hrun|]. cbn [pushed mpm_root ended mpm_expect].
  split; [done|]. split; [apply monthDecisions_paths|]. split; [|done].
  rewrite <- (length_map d_path), monthDecisions_paths. apply length_map.
Qed.

Lemma processMonth_decisions_in_day_order_witness :
  exists s' ds,
    processMonth "2020-06" ex_days_1_3_15_20 (ex_state [ex_a_log]) = (Ok tt, s') /\
    pushed s' = ds /\
    map d_path ds =
      [ "/backups/2020/06/01/a.log"; "/backups/2020/06/03/a.log";
        "/backups/2020/06/15/a.log"; "/backups/2020/06/20/a.log" ].
Proof.
  destruct (processMonth_decisions_in_day_order "2020-06" ex_days_1_3_15_20
              (ex_state [ex_a_log]) [ex_a_log])
    as (s' & ds & Hrun & Hpushed & Hpaths & _).
  - vm_compute. reflexivity.
  - intros d objects Hd.
    assert (MonthTree_wf ex_days_1_3_15_20) as Hwf by solve_MonthTree_wf.
    by destruct (Hwf d objects Hd).
  - exists s', ds. split; [exact Hrun|]. split; [exact Hpushed|].
    rewrite Hpaths. vm_compute. reflexivity.
Defined.

Lemma append_inj_l (s a b : string) : s +:+ a = s +:+ b -> a = b.
Proof.
  induction s as [|c s IH]; simpl; [done|]. intros [= H]. by apply IH.
Qed.

#[local] Set Warnings "-clear-no-such-hyp".

(** X4: [processMonth] emits the warning "<label>: no valid objects found
    in days 1-14" exactly when no day among 1..14 is complete, and the
    warning "<label>: no valid objects found after day 15" exactly when no
    day among 15..31 is complete, both of kind [nerr_missing]; in a month
    that gets one of them every warning is of that kind (no [nwarn_noday1],
    no [nwarn_noday2]), and in a month that gets none of them no warning is
    of that kind. *)
Theorem processMonth_missing_warnings
    (label : string) (monthtree : MonthTree) (s : State) (expect : list RegExp)
    (He : heap s !! mpm_expect s = Some expect)
    (Hne : forall d objects, monthtree !! d = Some objects -> objects <> []) :
  exists s' ws,
    processMonth label monthtree s = (Ok tt, s') /\
    warned s' = warned s ++ ws /\
    (mkWarning (VError (label +:+ ": no valid objects found in days 1-14"))
               "nerr_missing" ∈ ws <->
     forall d, 1 <= d <= 14 -> ~ complete s monthtree d) /\
    (mkWarning (VError (label +:+ ": no valid objects found after day 15"))
               "nerr_missing" ∈ ws <->
     forall d, 15 <= d <= 31 -> ~ complete s monthtree d) /\
    (degraded s monthtree -> forall w, w ∈ ws -> w_kind w = "nerr_missing") /\
    (~ degraded s monthtree -> forall w, w ∈ ws -> w_kind w <> "nerr_missing").
Proof.
  destruct (processMonth_run label monthtree s expect He Hne) as (h' & _ & Hrun).
  eexists _, _. split; [exact Hrun|]. cbn [warned]. split; [done|].
  rewrite <- (scan_first_none_iff s monthtree expect He).
  rewrite <- (scan_second_none_iff s monthtree expect He).
  assert (degraded s monthtree <->
          keepFirst expect monthtree = 15 \/ keepSecond expect monthtree = 32)
    as Hdeg.
  { unfold degraded.
    rewrite <- (scan_first_none_iff s monthtree expect He).
    by rewrite <- (scan_second_none_iff s monthtree expect He). }
  rewrite Hdeg. clear Hdeg Hrun.
  fold (keepFirst expect monthtree) (keepSecond expect monthtree).
  generalize (keepFirst expect monthtree) (keepSecond expect monthtree).
  intros f g. unfold monthWarnings.
  assert (label +:+ ": no valid objects found in days 1-14" <>
          label +:+ ": no valid objects found after day 15") as Hmsg.
  { intros H. by apply append_inj_l in H. }
  destruct (f =? 15) eqn:Ef, (g =? 32) eqn:Eg, (f =? 1), (g =? 15);
    cbn [orb negb andb app];
    rewrite ?Nat.eqb_eq, ?Nat.eqb_neq in *;
    rewrite ?elem_of_cons, ?elem_of_nil;
    (split; [|split; [|split]]);
    try (intros ? w; rewrite ?elem_of_cons, ?elem_of_nil);
    naive_solver.
Qed.

Lemma processMonth_missing_warnings_witness :
  exists s' ws,
    processMonth "2020-06" ex_days_20_25 (ex_state []) = (Ok tt, s') /\
    warned s' = ws /\
    mkWarning (VError "2020-06: no valid objects found in days 1-14")
              "nerr_missing" ∈ ws.
Proof.
  assert (heap (ex_state []) !! mpm_expect (ex_state []) = Some []) as He.
  { vm_compute. reflexivity. }
  destruct (processMonth_missing_warnings "2020-06" ex_days_20_25 (ex_state []) [] He)
    as (s' & ws & Hrun & Hwarned & Hfirst & _).
  - intros d objects Hd.
    assert (MonthTree_wf ex_days_20_25) as Hwf by solve_MonthTree_wf.
    by destruct (Hwf d objects Hd).
  - exists s', ws. split; [exact Hrun|]. split; [exact Hwarned|].
    apply Hfirst. apply (scan_first_none_iff _ _ [] He).
    vm_compute. reflexivity.
Defined.

(** ** The policy and its target *)

Lemma monthDecisions_Forall (P : DecisionRecord -> Prop) skip first second
    (monthtree : MonthTree) :
  (forall i o, P (decisionFor skip first second i o)) ->
  Forall P (monthDecisions skip first second monthtree).
Proof.
  intros HP. unfold monthDecisions.
  induction (seq 0 32) as [|i l IH]; [constructor|].
  cbn [flat_map]. apply Forall_app. split; [|exact IH].
  apply Forall_forall. intros dec Hin.
  apply list_elem_of_In, in_map_iff in Hin as (o & <- & _). apply HP.
Qed.

Lemma validateRecord_decisionFor skip first second i o :
  validateRecord (decisionFor skip first second i o) = Ok tt.
Proof.
  unfold decisionFor. destruct skip; [done|].
  by destruct ((i =? first) || (i =? second)).
Qed.

(** X5: every record [processMonth] pushes satisfies [validateRecord], the
    check both targets run first: it is of type [skip] with one of the two
    reasons "could not determine which objects to keep in this month" and
    "designated for keeping", or of type [remove] without a reason. *)
Theorem processMonth_pushes_valid_records
    (label : string) (monthtree : MonthTree) (s : State) (expect : list RegExp)
    (He : heap s !! mpm_expect s = Some expect)
    (Hne : forall d objects, monthtree !! d = Some objects -> objects <> []) :
  exists s' ds,
    processMonth label monthtree s = (Ok tt, s') /\
    pushed s' = pushed s ++ ds /\
    forall dec, dec ∈ ds ->
      validateRecord dec = Ok tt /\
      (d_type dec = "skip" /\
       (d_reason dec = Some "could not determine which objects to keep in this month" \/
        d_reason dec = Some "designated for keeping") \/
       d_type dec = "remove" /\ d_reason dec = None).
Proof.
  destruct (processMonth_run label monthtree s expect He Hne) as (h' & _ & Hrun).
  eexists _, _. split; [exact Hrun|]. split; [done|].
  apply Forall_forall, monthDecisions_Forall. intros i o.
  split; [apply validateRecord_decisionFor|].
  unfold decisionFor.
  repeat match goal with
         | |- context [if ?b then _ else _] => destruct b
         end;
    cbn [d_type d_reason]; (by right) || (left; split; [done|]; by (left + right)).
Qed.

Lemma processMonth_pushes_valid_records_witness :
  exists s' ds,
    processMonth "2020-06" ex_days_1_3_15_20 (ex_state []) = (Ok tt, s') /\
    pushed s' = ds /\
    Forall (fun dec => validateRecord dec = Ok tt) ds.
Proof.
  destruct (processMonth_pushes_valid_records "2020-06" ex_days_1_3_15_20
              (ex_state []) [])
    as (s' & ds & Hrun & Hpushed & Hvalid).
  - vm_compute. reflexivity.
  - intros d objects Hd.
    assert (MonthTree_wf ex_days_1_3_15_20) as Hwf by solve_MonthTree_wf.
    by destruct (Hwf d objects Hd).
  - exists s', ds. split; [exact Hrun|]. split; [exact Hpushed|].
    apply Forall_forall. intros dec Hin. by destruct (Hvalid dec Hin).
Defined.

(** ** The bucket tree *)

Lemma bucketOf_rootInsert when o root y m d :
  bucketOf (rootInsert when o root) y m d =
  bucketOf root y m d ++
  (if decide ((getUTCFullYear when, getUTCMonth when + 1, getUTCDate when) = (y, m, d))
   then [o] else []).
Proof.
  unfold bucketOf, rootInsert.
  destruct (decide (getUTCFullYear when = y)) as [<-|Hy].
  2: { rewrite lookup_insert_ne by done.
       rewrite decide_False by congruence. by rewrite app_nil_r. }
  rewrite lookup_insert_eq. cbn [mbind option_bind].
  destruct (decide (getUTCMonth when + 1 = m)) as [<-|Hm].
  2: { rewrite lookup_insert_ne by done.
       rewrite decide_False by congruence. rewrite app_nil_r.
       destruct (root !! getUTCFullYear when) as [yt|]; cbn; [done|].
       by rewrite lookup_empty. }
  rewrite lookup_insert_eq. cbn [mbind option_bind].
  destruct (decide (getUTCDate when = d)) as [<-|Hd].
  2: { rewrite lookup_insert_ne by done.
       rewrite decide_False by congruence. rewrite app_nil_r.
       destruct (root !! getUTCFullYear when) as [yt|]; cbn.
       - destruct (yt !! (getUTCMonth when + 1)) as [mt|]; cbn; [done|].
         by rewrite lookup_empty.
       - by rewrite !lookup_empty. }
  rewrite lookup_insert_eq. rewrite decide_True by done. cbn.
  destruct (root !! getUTCFullYear when) as [yt|]; cbn.
  - destruct (yt !! (getUTCMonth when + 1)) as [mt|]; cbn; [done|].
    by rewrite lookup_empty.
  - by rewrite !lookup_empty.
Qed.

Lemma ingest_all (P : nat -> list ObjectRecord -> Prop) objs s :
  (forall when b o, P (getUTCDate when) (b ++ [o])) ->
  Forall (fun o => start o <> None) objs ->
  (forall y (yeartree : YearTree) m (monthtree : MonthTree) d objects,
     mpm_root s !! y = Some yeartree -> yeartree !! m = Some monthtree ->
     monthtree !! d = Some objects -> P d objects) ->
  exists root',
    forEach objs _transform s = (Ok tt, set_root root' s) /\
    (forall y (yeartree : YearTree) m (monthtree : MonthTree) d objects,
       root' !! y = Some yeartree -> yeartree !! m = Some monthtree ->
       monthtree !! d = Some objects -> P d objects) /\
    (forall y m d,
       bucketOf root' y m d =
       bucketOf (mpm_root s) y m d ++
       filter (fun o => objectKey o = Some (y, m, d)) objs).
Proof.
  intros Hnew Hdated. revert s.
  induction Hdated as [|o objs Hstart _ IH]; intros s HP.
  - exists (mpm_root s). rewrite forEach_nil. split; [by destruct s|].
    split; [done|]. intros y m d. by rewrite app_nil_r.
  - destruct (start o) as [when|] eqn:Hwhen; [clear Hstart | done].
    rewrite forEach_cons.
    rewrite (bind_Ok _ _ _ _ _ (transform_dated o when s Hwhen)).
    destruct (IH (set_root (rootInsert when o (mpm_root s)) s))
      as (root' & Hrun & HP' & Hbuckets).
    { cbn [mpm_root set_root]. by apply rootInsert_all. }
    exists root'. split; [by rewrite Hrun|]. split; [done|].
    intros y m d. rewrite Hbuckets. cbn [mpm_root set_root].
    rewrite bucketOf_rootInsert, <- app_assoc. f_equal.
    assert (objectKey o =
            Some (getUTCFullYear when, getUTCMonth when + 1, getUTCDate when))
      as Hkey by (unfold objectKey; by rewrite Hwhen).
    destruct (decide ((getUTCFullYear when, getUTCMonth when + 1, getUTCDate when)
                      = (y, m, d))) as [Heq|Hneq].
    + rewrite filter_cons_True by (by rewrite Hkey, Heq). done.
    + rewrite filter_cons_False by (rewrite Hkey; congruence). done.
Qed.

(** X6: writing objects that all have a date only changes the tree: no
    array is allocated, nothing is pushed, no warning is emitted; the array
    of each day gets, appended in the order of arrival, exactly the objects
    written whose date is that year, month and day; and in a tree that
    started empty every array is that of a day 1..31 and is not empty. *)
Theorem ingestion_buckets_by_date
    (objs : list ObjectRecord) (s : State)
    (Hdated : Forall (fun o => start o <> None) objs) :
  exists s',
    forEach objs _transform s = (Ok tt, s') /\
    heap s' = heap s /\ pushed s' = pushed s /\ warned s' = warned s /\
    ended s' = ended s /\
    (forall y m d,
       bucketOf (mpm_root s') y m d =
       bucketOf (mpm_root s) y m d ++
       filter (fun o => objectKey o = Some (y, m, d)) objs) /\
    (mpm_root s = ∅ ->
     forall y (yeartree : YearTree) m (monthtree : MonthTree) d objects,
       mpm_root s' !! y = Some yeartree -> yeartree !! m = Some monthtree ->
       monthtree !! d = Some objects -> 1 <= d <= 31 /\ objects <> []).
Proof.
  destruct (ingest_all (fun _ _ => True) objs s) as (root' & Hrun & _ & Hbuckets);
    [done | done | done |].
  exists (set_root root' s). split; [done|]. cbn [heap pushed warned ended mpm_root set_root].
  do 4 (split; [done|]). split; [done|].
  intros Hempty.
  destruct (ingest_all (fun d objects => 1 <= d <= 31 /\ objects <> []) objs s)
    as (root'' & Hrun' & HP & _); [| done | |].
  - intros when b o. destruct (Date_range when) as [_ Hd].
    split; [done | by destruct b].
  - intros y yeartree m monthtree d objects Hy.
    rewrite Hempty in Hy. by rewrite lookup_empty in Hy.
  - rewrite Hrun in Hrun'. injection Hrun' as <-. exact HP.
Qed.

Lemma ingestion_buckets_by_date_witness :
  exists s',
    forEach ex_objects _transform (ex_state []) = (Ok tt, s') /\
    bucketOf (mpm_root s') 2020 6 15 =
      [ex_object "/backups/2020/06/15/a.log" 15 eq_refl] /\
    bucketOf (mpm_root s') 2020 6 16 = [].
Proof.
  destruct (ingestion_buckets_by_date ex_objects (ex_state []))
    as (s' & Hrun & _ & _ & _ & _ & Hbuckets & _).
  - repeat constructor; discriminate.
  - exists s'. split; [exact Hrun|]. rewrite !Hbuckets.
    split; vm_compute; reflexivity.
Defined.

(** ** The operation *)

Lemma MpruneOperation_Ok args h arr :
  h !! p_expect args = Some arr ->
  exists s0,
    MpruneOperation args h = Ok s0 /\
    heap s0 !! mpm_expect s0 = Some arr /\
    mpm_root s0 = ∅ /\ pushed s0 = [] /\ warned s0 = [].
Proof.
  intros Hp. unfold MpruneOperation, heap_slice0. rewrite Hp.
  cbn [mbind option_bind]. destruct (p_policy args).
  eexists. split; [done|]. cbn [heap mpm_expect mpm_root pushed warned].
  split; [apply lookup_insert_eq | done].
Qed.

Lemma runPolicy_dated objs s expect :
  heap s !! mpm_expect s = Some expect ->
  RootTree_wf (mpm_root s) ->
  Forall (fun o => start o <> None) objs ->
  exists root' h',
    runPolicy objs s =
      (Ok tt, mkState h' root' (mpm_expect s)
                (pushed s ++ flush_pushed expect root') true
                (warned s ++ flush_warned expect root')) /\
    rootObjects root' ≡ₚ rootObjects (mpm_root s) ++ objs.
Proof.
  intros He Hwf Hdated.
  destruct (ingest_run objs s Hdated Hwf) as (root' & Hrun & Hwf' & Hobjs).
  destruct (flush_run (set_root root' s) expect) as (h' & _ & Hflush); [done| |].
  { cbn [mpm_root set_root]. by apply RootTree_wf_nonempty. }
  exists root', h'. split; [|done].
  unfold runPolicy. by rewrite (bind_Ok _ _ _ _ _ Hrun), Hflush.
Qed.

Lemma runPolicy_undated before o after s :
  Forall (fun o' => start o' <> None) before ->
  start o = None ->
  exists root',
    runPolicy (before ++ o :: after) s =
      (Err (VError ("found entry not under a particular time bucket: " +:+ path o)),
       set_root root' s).
Proof.
  intros Hbefore Ho.
  destruct (ingest_all (fun _ _ => True) before s) as (root' & Hrun & _);
    [done | done | done |].
  exists root'. unfold runPolicy.
  apply bind_Err. rewrite (forEach_app _ _ _ _ _ Hrun), forEach_cons.
  apply bind_Err. unfold _transform. by rewrite Ho.
Qed.


Lemma flush_pushed_Forall (P : DecisionRecord -> Prop) expect root :
  (forall skip first second i o, P (decisionFor skip first second i o)) ->
  Forall P (flush_pushed expect root).
Proof.
  intros HP. unfold flush_pushed.
  induction (map_to_list root) as [|[y yeartree] l IH]; [constructor|].
  cbn [flat_map snd]. apply Forall_app. split; [|exact IH]. clear IH.
  induction (map_to_list yeartree) as [|[m monthtree] l' IH']; [constructor|].
  cbn [flat_map snd]. apply Forall_app. split; [|exact IH'].
  apply monthDecisions_Forall. intros i o. apply HP.
Qed.

Lemma writeAll_dryRun stringify ds console :
  Forall (fun dec => validateRecord dec = Ok tt) ds ->
  writeAll (MpruneTargetDryRun_write stringify) ds console =
  (Ok tt, console ++ map (dryRunLine stringify) ds).
Proof.
  intros Hvalid. revert console.
  induction Hvalid as [|dec ds Hdec _ IH]; intros console; cbn [writeAll map].
  - by rewrite app_nil_r.
  - unfold MpruneTargetDryRun_write. rewrite Hdec, IH.
    by rewrite <- app_assoc.
Qed.

Lemma writeAll_remover ds console :
  Forall (fun dec => validateRecord dec = Ok tt) ds ->
  writeAll MpruneTargetRemover_write ds console =
  match ds with
  | [] => (Ok tt, console)
  | _ :: _ =>
      (Err (VError "not yet implemented: MpruneTargetRemover.write()"), console)
  end.
Proof.
  intros [|dec ds' Hdec _]; [done|].
  cbn [writeAll]. unfold MpruneTargetRemover_write. by rewrite Hdec.
Qed.

Lemma transformPath_dated mp_filter path_basename found :
  Forall (fun o => extractBeginTimeFor mp_filter (f_path o) <> None) found ->
  Forall (fun o => start o <> None)
         (map (MpruneTransformPath_transform mp_filter path_basename) found).
Proof. intros H. apply Forall_map. exact H. Qed.

Lemma transformPath_paths mp_filter path_basename found :
  map path (map (MpruneTransformPath_transform mp_filter path_basename) found) =
  map f_path found.
Proof. rewrite map_map. by apply map_ext. Qed.

(** What [mprune] gives when every object found has a date. *)
Lemma mprune_dated path_basename stringify args h found arr :
  h !! p_expect (p_args args) = Some arr ->
  Forall (fun o => extractBeginTimeFor (p_timefmt args) (f_path o) <> None) found ->
  exists ds ws,
    Forall (fun dec => validateRecord dec = Ok tt) ds /\
    map d_path ds ≡ₚ map f_path found /\
    (forall P : DecisionRecord -> Prop,
       (forall skip first second i o, P (decisionFor skip first second i o)) ->
       Forall P ds) /\
    mprune path_basename stringify args h found =
    match writeAll (if p_dryrun args
                    then MpruneTargetDryRun_write stringify
                    else MpruneTargetRemover_write) ds [] with
    | (Ok _, console) => mkOutcome None None ws console
    | (Err e, console) => stageFailure "remover" e ws console
    end.
Proof.
  intros Hp Hdated.
  destruct (MpruneOperation_Ok _ _ _ Hp) as (s0 & Hnew & He & Hroot & Hpushed & Hwarned).
  destruct (runPolicy_dated
              (map (MpruneTransformPath_transform (p_timefmt args) path_basename) found)
              s0 arr He) as (root' & h' & Hrun & Hobjs).
  { rewrite Hroot. apply RootTree_wf_empty. }
  { by apply transformPath_dated. }
  rewrite Hroot in Hobjs. unfold rootObjects at 2 in Hobjs.
  rewrite map_to_list_empty in Hobjs. cbn [flat_map app] in Hobjs.
  rewrite Hpushed, Hwarned in Hrun. cbn [app] in Hrun.
  exists (flush_pushed arr root'), (flush_warned arr root').
  split; [|split; [|split]].
  - apply flush_pushed_Forall. intros. apply validateRecord_decisionFor.
  - rewrite flush_pushed_paths, <- (transformPath_paths (p_timefmt args) path_basename).
    by apply Permutation_map.
  - intros P HP. by apply flush_pushed_Forall.
  - unfold mprune. rewrite Hnew. unfold MpruneOperation_start.
    rewrite Hrun. cbn [pushed warned]. done.
Qed.

Lemma mprune_undated path_basename stringify args h arr before after o :
  h !! p_expect (p_args args) = Some arr ->
  Forall (fun o' => extractBeginTimeFor (p_timefmt args) (f_path o') <> None) before ->
  extractBeginTimeFor (p_timefmt args) (f_path o) = None ->
  mprune path_basename stringify args h (before ++ o :: after) =
  mkOutcome
    (Some (VError ("policy: found entry not under a particular time bucket: "
                   +:+ f_path o)))
    None [] [].
Proof.
  intros Hexpect Hbefore Ho.
  destruct (MpruneOperation_Ok _ _ _ Hexpect)
    as (s0 & Hnew & He & Hroot & Hpushed & Hwarned).
  unfold mprune. rewrite Hnew. unfold MpruneOperation_start.
  rewrite map_app. cbn [map].
  destruct (runPolicy_undated
    (map (MpruneTransformPath_transform (p_timefmt args) path_basename) before)
    (MpruneTransformPath_transform (p_timefmt args) path_basename o)
    (map (MpruneTransformPath_transform (p_timefmt args) path_basename) after)
    s0) as (root' & ->).
  - by apply transformPath_dated.
  - exact Ho.
  - cbn [stageFailure proxyEmitError Error_message path
         MpruneTransformPath_transform warned set_root].
    by rewrite Hwarned.
Qed.

(** X7: a dry run over objects that all have a date emits no error and
    throws nothing; it logs exactly one line for each object found, the
    line of a decision for that object's path: the paths of the decisions
    are the paths of the objects, each as often as it was found. *)
Theorem mprune_dry_run_reports_every_object
    (path_basename stringify : string -> string) (args : MpruneArgs)
    (h : gmap loc (list RegExp)) (found : list FoundObject) (arr : list RegExp)
    (Hexpect : h !! p_expect (p_args args) = Some arr)
    (Hdry : p_dryrun args = true)
    (Hdated : Forall (fun o => extractBeginTimeFor (p_timefmt args) (f_path o) <> None)
                     found) :
  exists ds ws,
    mprune path_basename stringify args h found =
      mkOutcome None None ws (map (dryRunLine stringify) ds) /\
    map d_path ds ≡ₚ map f_path found /\
    length (map (dryRunLine stringify) ds) = length found /\
    Forall (fun dec => validateRecord dec = Ok tt) ds.
Proof.
  destruct (mprune_dated path_basename stringify args h found arr Hexpect Hdated)
    as (ds & ws & Hvalid & Hpaths & _ & Hrun).
  rewrite Hdry, (writeAll_dryRun stringify ds [] Hvalid) in Hrun.
  exists ds, ws. split; [exact Hrun|]. split; [done|]. split; [|done].
  apply Permutation_length in Hpaths. by rewrite !length_map in *.
Qed.

Lemma mprune_dry_run_reports_every_object_witness :
  exists ds ws,
    mprune ex_basename JSON_stringify (ex_args true) ex_heap ex_found =
      mkOutcome None None ws (map (dryRunLine JSON_stringify) ds) /\
    map d_path ds ≡ₚ map f_path ex_found /\
    length (map (dryRunLine JSON_stringify) ds) = 3.
Proof.
  destruct (mprune_dry_run_reports_every_object ex_basename JSON_stringify
              (ex_args true) ex_heap ex_found [ex_a_log])
    as (ds & ws & Hrun & Hpaths & Hlen & _).
  - vm_compute. reflexivity.
  - reflexivity.
  - repeat constructor; vm_compute; discriminate.
  - exists ds, ws. split; [exact Hrun|]. split; [exact Hpaths | exact Hlen].
Defined.

(** X8: an operation that is not a dry run, over objects that all have a
    date, logs nothing and throws nothing; when at least one object was
    found it emits the error "remover: not yet implemented:
    MpruneTargetRemover.write()", and when none was found it emits no
    error. *)
Theorem mprune_remover_not_implemented
    (path_basename stringify : string -> string) (args : MpruneArgs)
    (h : gmap loc (list RegExp)) (found : list FoundObject) (arr : list RegExp)
    (Hexpect : h !! p_expect (p_args args) = Some arr)
    (Hdry : p_dryrun args = false)
    (Hdated : Forall (fun o => extractBeginTimeFor (p_timefmt args) (f_path o) <> None)
                     found) :
  let out := mprune path_basename stringify args h found in
  out_console out = [] /\ out_thrown out = None /\
  (found <> [] ->
   out_error out =
     Some (VError "remover: not yet implemented: MpruneTargetRemover.write()")) /\
  (found = [] -> out_error out = None).
Proof.
  destruct (mprune_dated path_basename stringify args h found arr Hexpect Hdated)
    as (ds & ws & Hvalid & Hpaths & _ & Hrun).
  rewrite Hdry, (writeAll_remover ds [] Hvalid) in Hrun.
  cbv zeta. rewrite Hrun.
  apply Permutation_length in Hpaths. rewrite !length_map in Hpaths.
  destruct ds as [|dec ds], found as [|o found]; try discriminate; done.
Qed.

Lemma mprune_remover_not_implemented_witness :
  out_error (mprune ex_basename JSON_stringify (ex_args false) ex_heap ex_found) =
    Some (VError "remover: not yet implemented: MpruneTargetRemover.write()") /\
  out_console (mprune ex_basename JSON_stringify (ex_args false) ex_heap ex_found) = [].
Proof.
  destruct (mprune_remover_not_implemented ex_basename JSON_stringify
              (ex_args false) ex_heap ex_found [ex_a_log])
    as (Hconsole & _ & Herror & _).
  - vm_compute. reflexivity.
  - reflexivity.
  - repeat constructor; vm_compute; discriminate.
  - split; [by apply Herror | exact Hconsole].
Defined.

(** X9: when an object found has no date, and the objects found before it
    have one, the operation emits the error "policy: found entry not under a
    particular time bucket: <path>" with the path of that object, and
    nothing else: no warning, no line on the console, no exception, whether
    it is a dry run or not and whatever was found after that object. *)
Theorem mprune_undated_object_fails
    (path_basename stringify : string -> string) (args : MpruneArgs)
    (h : gmap loc (list RegExp)) (arr : list RegExp)
    (before after : list FoundObject) (o : FoundObject)
    (Hexpect : h !! p_expect (p_args args) = Some arr)
    (Hbefore : Forall (fun o' => extractBeginTimeFor (p_timefmt args) (f_path o') <> None)
                      before)
    (Ho : extractBeginTimeFor (p_timefmt args) (f_path o) = None) :
  mprune path_basename stringify args h (before ++ o :: after) =
  mkOutcome
    (Some (VError ("policy: found entry not under a particular time bucket: "
                   +:+ f_path o)))
    None [] [].
Proof. by apply (mprune_undated path_basename stringify args h arr). Qed.

Lemma mprune_undated_object_fails_witness :
  mprune ex_basename JSON_stringify (ex_args true) ex_heap
    (ex_found ++ ex_found_undated :: ex_found) =
  mkOutcome
    (Some (VError "policy: found entry not under a particular time bucket: /backups/README"))
    None [] [].
Proof.
  apply (mprune_undated_object_fails ex_basename JSON_stringify (ex_args true)
           ex_heap [ex_a_log] ex_found ex_found ex_found_undated).
  - vm_compute. reflexivity.
  - repeat constructor; vm_compute; discriminate.
  - vm_compute. reflexivity.
Defined.

(** ** The lines of a dry run *)






Lemma dryRunLine_skip stringify p r :
  dryRunLine stringify (mkDecision "skip" p (Some r)) =
  "would skip (" +:+ r +:+ "): " +:+ stringify p.
Proof. reflexivity. Qed.

Lemma dryRunLine_remove stringify p r :
  dryRunLine stringify (mkDecision "remove" p r) = "would remove: " +:+ stringify p.
Proof. reflexivity. Qed.



Lemma length_append (a b : string) :
  String.length (a +:+ b) = String.length a + String.length b.
Proof. induction a as [|c a IH]; simpl; [done|]. by rewrite IH. Qed.

Lemma append_inj_length (a1 a2 b1 b2 : string) :
  a1 +:+ b1 = a2 +:+ b2 -> String.length b1 = String.length b2 ->
  a1 = a2 /\ b1 = b2.
Proof.
  revert a2. induction a1 as [|c1 a1 IH]; intros [|c2 a2] Heq Hlen; simpl in *.
  - done.
  - exfalso. apply (f_equal String.length) in Heq.
    rewrite !length_append in Heq. simpl in Heq. lia.
  - exfalso. apply (f_equal String.length) in Heq.
    rewrite !length_append in Heq. simpl in Heq. lia.
  - injection Heq as -> Heq. destruct (IH a2 Heq Hlen) as [-> ->]. done.
Qed.

Lemma JSON_unquoteFirst_quoteChar c r :
  JSON_unquoteFirst (JSON_quoteChar c +:+ r) = Some (c, r).
Proof. destruct c as [[] [] [] [] [] [] [] []]; reflexivity. Qed.

Lemma JSON_quoteChar_nonempty c r : JSON_quoteChar c +:+ r <> EmptyString.
Proof.
  intros H. apply (f_equal JSON_unquoteFirst) in H.
  by rewrite JSON_unquoteFirst_quoteChar in H.
Qed.

Lemma JSON_quote_inj s1 s2 : JSON_quote s1 = JSON_quote s2 -> s1 = s2.
Proof.
  revert s2. induction s1 as [|c1 s1 IH]; intros [|c2 s2] H; cbn [JSON_quote] in H.
  - done.
  - symmetry in H. by apply JSON_quoteChar_nonempty in H.
  - by apply JSON_quoteChar_nonempty in H.
  - apply (f_equal JSON_unquoteFirst) in H.
    rewrite !JSON_unquoteFirst_quoteChar in H. injection H as -> H.
    by rewrite (IH s2 H).
Qed.

Lemma JSON_stringify_inj s1 s2 : JSON_stringify s1 = JSON_stringify s2 -> s1 = s2.
Proof.
  unfold JSON_stringify. intros [= H].
  apply append_inj_length in H as [H _]; [|done].
  by apply JSON_quote_inj.
Qed.

(** X11: with [JSON.stringify] for the paths, the line of the dry-run
    target tells the record: two records of the shapes the policy pushes
    that give the same line are the same record, type, path and reason. *)
Theorem dryRunLine_determines_record (dec1 dec2 : DecisionRecord)
    (H1 : policyRecord dec1) (H2 : policyRecord dec2)
    (Hline : dryRunLine JSON_stringify dec1 = dryRunLine JSON_stringify dec2) :
  dec1 = dec2.
Proof.
  destruct dec1 as [t1 p1 r1], dec2 as [t2 p2 r2].
  unfold policyRecord in *. cbn [d_type d_reason] in *.
  destruct H1 as [[-> ->] | [[-> ->] | [-> ->]]],
           H2 as [[-> ->] | [[-> ->] | [-> ->]]];
    rewrite ?dryRunLine_skip, ?dryRunLine_remove in Hline;
    try (by vm_compute in Hline; discriminate Hline);
    try (injection Hline as Hline; discriminate Hline).
  - do 2 apply append_inj_l in Hline.
    apply append_inj_l, JSON_stringify_inj in Hline. by subst.
  - do 2 apply append_inj_l in Hline.
    apply append_inj_l, JSON_stringify_inj in Hline. by subst.
  - apply append_inj_l, JSON_stringify_inj in Hline. by subst.
Qed.

Lemma dryRunLine_determines_record_witness :
  mkDecision "remove" "/backups/2020/06/03/a.log" None =
  mkDecision "remove" "/backups/2020/06/03/a.log" None.
Proof.
  apply (dryRunLine_determines_record
           (mkDecision "remove" "/backups/2020/06/03/a.log" None)
           (mkDecision "remove" "/backups/2020/06/03/a.log" None)).
  - right; right. split; reflexivity.
  - right; right. split; reflexivity.
  - reflexivity.
Defined.

(** ** The labels of the months *)

Lemma pad02_month m :
  1 <= m <= 12 -> String.length ("-" +:+ pad02 (pretty m)) = 3.
Proof.
  intros Hm. do 13 (destruct m as [|m]; [try lia; reflexivity|]). lia.
Qed.

Lemma pad02_month_inj m1 m2 :
  1 <= m1 <= 12 -> 1 <= m2 <= 12 ->
  "-" +:+ pad02 (pretty m1) = "-" +:+ pad02 (pretty m2) -> m1 = m2.
Proof.
  intros H1 H2.
  assert (Forall (fun a => Forall (fun b =>
            "-" +:+ pad02 (pretty a) = "-" +:+ pad02 (pretty b) -> a = b)
            [1; 2; 3; 4; 5; 6; 7; 8; 9; 10; 11; 12])
            [1; 2; 3; 4; 5; 6; 7; 8; 9; 10; 11; 12]) as Hall.
  { repeat constructor; intros H; vm_compute in H; congruence. }
  assert (forall m, 1 <= m <= 12 -> m ∈ [1; 2; 3; 4; 5; 6; 7; 8; 9; 10; 11; 12])
    as Hin.
  { intros m Hm. do 13 (destruct m as [|m]; [try lia; set_solver|]). lia. }
  rewrite Forall_forall in Hall. specialize (Hall m1 (Hin m1 H1)).
  rewrite Forall_forall in Hall. exact (Hall m2 (Hin m2 H2)).
Qed.

(** X12: the label [_flush] gives a month, the year, a dash and the month
    on two digits, tells the month: two months of the tree (1..12) with the
    same label are the same month of the same year. *)
Theorem monthLabel_inj (y1 y2 : Z) (m1 m2 : nat)
    (H1 : 1 <= m1 <= 12) (H2 : 1 <= m2 <= 12)
    (Hlabel : monthLabel y1 m1 = monthLabel y2 m2) :
  y1 = y2 /\ m1 = m2.
Proof.
  unfold monthLabel in Hlabel.
  apply append_inj_length in Hlabel as [Hy Hm].
  - split; [by apply (inj pretty) | by apply pad02_month_inj].
  - by rewrite !pad02_month.
Qed.

Lemma monthLabel_inj_witness : 2020%Z = 2020%Z /\ 6 = 6.
Proof.
  apply (monthLabel_inj 2020%Z 2020%Z 6 6); [lia | lia | reflexivity].
Defined.

(** ** Months one by one *)

(** X13: [_flush] treats the months of the tree one by one: on a policy
    that has pushed nothing and warned of nothing yet, a decision is pushed
    exactly when [processMonth], run by itself on some month of the tree
    with that month's label, pushes it, and likewise for the warnings; the
    stream is ended and the tree is left as it was. *)
Theorem flush_is_monthwise (s : State) (expect : list RegExp)
    (He : heap s !! mpm_expect s = Some expect)
    (Hne : RootTree_nonempty (mpm_root s))
    (Hpushed : pushed s = [])
    (Hwarned : warned s = []) :
  exists s',
    _flush s = (Ok tt, s') /\
    ended s' = true /\ mpm_root s' = mpm_root s /\
    (forall dec,
       dec ∈ pushed s' <->
       exists y (yeartree : YearTree) m (monthtree : MonthTree) sm,
         mpm_root s !! y = Some yeartree /\ yeartree !! m = Some monthtree /\
         processMonth (monthLabel y m) monthtree s = (Ok tt, sm) /\
         dec ∈ pushed sm) /\
    (forall w,
       w ∈ warned s' <->
       exists y (yeartree : YearTree) m (monthtree : MonthTree) sm,
         mpm_root s !! y = Some yeartree /\ yeartree !! m = Some monthtree /\
         processMonth (monthLabel y m) monthtree s = (Ok tt, sm) /\
         w ∈ warned sm).
Proof.
  destruct (flush_run s expect He Hne) as (h' & _ & Hrun).
  eexists. split; [exact Hrun|]. cbn [ended mpm_root pushed warned].
  split; [done|]. split; [done|].
  rewrite Hpushed, Hwarned. cbn [app].
  assert (forall y (yeartree : YearTree) m (monthtree : MonthTree),
    mpm_root s !! y = Some yeartree -> yeartree !! m = Some monthtree ->
    exists sm,
      processMonth (monthLabel y m) monthtree s = (Ok tt, sm) /\
      pushed sm = processMonth_pushed expect monthtree /\
      warned sm = processMonth_warned expect (monthLabel y m) monthtree)
    as Hmonth.
  { intros y yeartree m monthtree Hy Hm.
    destruct (processMonth_run' (monthLabel y m) monthtree s expect)
      as (hm & _ & Hrunm); [by intros d objects Hd; eapply Hne | done |].
    eexists. split; [exact Hrunm|]. cbn [pushed warned].
    by rewrite Hpushed, Hwarned. }
  split.
  - intros dec. unfold flush_pushed.
    rewrite list_elem_of_In, in_flat_map. split.
    + intros ([y yeartree] & Hy & Hin). apply in_flat_map in Hin.
      destruct Hin as ([m monthtree] & Hm & Hin). cbn [fst snd] in *.
      apply list_elem_of_In, elem_of_map_to_list in Hy, Hm.
      destruct (Hmonth y yeartree m monthtree Hy Hm) as (sm & Hrunm & Hp & _).
      exists y, yeartree, m, monthtree, sm.
      rewrite Hp. by rewrite list_elem_of_In.
    + intros (y & yeartree & m & monthtree & sm & Hy & Hm & Hrunm & Hin).
      destruct (Hmonth y yeartree m monthtree Hy Hm) as (sm' & Hrunm' & Hp & _).
      rewrite Hrunm in Hrunm'. injection Hrunm' as <-.
      exists (y, yeartree). split.
      * by apply list_elem_of_In, elem_of_map_to_list.
      * apply in_flat_map. exists (m, monthtree). split.
        -- by apply list_elem_of_In, elem_of_map_to_list.
        -- cbn [snd]. rewrite <- Hp. by apply list_elem_of_In.
  - intros w. unfold flush_warned.
    rewrite list_elem_of_In, in_flat_map. split.
    + intros ([y yeartree] & Hy & Hin). apply in_flat_map in Hin.
      destruct Hin as ([m monthtree] & Hm & Hin). cbn [fst snd] in *.
      apply list_elem_of_In, elem_of_map_to_list in Hy, Hm.
      destruct (Hmonth y yeartree m monthtree Hy Hm) as (sm & Hrunm & _ & Hw).
      exists y, yeartree, m, monthtree, sm.
      rewrite Hw. by rewrite list_elem_of_In.
    + intros (y & yeartree & m & monthtree & sm & Hy & Hm & Hrunm & Hin).
      destruct (Hmonth y yeartree m monthtree Hy Hm) as (sm' & Hrunm' & _ & Hw).
      rewrite Hrunm in Hrunm'. injection Hrunm' as <-.
      exists (y, yeartree). split.
      * by apply list_elem_of_In, elem_of_map_to_list.
      * apply in_flat_map. exists (m, monthtree). split.
        -- by apply list_elem_of_In, elem_of_map_to_list.
        -- cbn [fst snd]. rewrite <- Hw. by apply list_elem_of_In.
Qed.

(** X14: [processMonth] never removes a whole month: when it pushes a
    [remove] decision, it also pushes a [skip] decision with reason
    "designated for keeping" for an object of a day among 1..14 and for an
    object of a day among 15..31. *)
Theorem processMonth_keeps_two_days
    (label : string) (monthtree : MonthTree) (s : State) (expect : list RegExp)
    (He : heap s !! mpm_expect s = Some expect)
    (Hwf : MonthTree_wf monthtree) :
  exists s' ds,
    processMonth label monthtree s = (Ok tt, s') /\
    pushed s' = pushed s ++ ds /\
    forall dec, dec ∈ ds -> d_type dec = "remove" ->
      exists f g objects1 objects2 o1 o2,
        1 <= f <= 14 /\ 15 <= g <= 31 /\
        monthtree !! f = Some objects1 /\ o1 ∈ objects1 /\
        monthtree !! g = Some objects2 /\ o2 ∈ objects2 /\
        mkDecision "skip" (path o1) (Some "designated for keeping") ∈ ds /\
        mkDecision "skip" (path o2) (Some "designated for keeping") ∈ ds.
Proof.
  destruct (processMonth_run label monthtree s expect He) as (h' & _ & Hrun).
  { intros d objects Hd. by destruct (Hwf d objects Hd). }
  eexists _, _. split; [exact Hrun|]. split; [done|].
  set (c := fun i => completeb expect (monthtree !! i)).
  intros dec Hin Hty.
  apply (elem_of_monthDecisions _ _ _ _ _ Hwf) in Hin
    as (d & objects & o & Hd & Ho & ->).
  unfold decisionFor in Hty.
  destruct ((scanFrom c 14 1 =? 15) || (scanFrom c 17 15 =? 32)) eqn:Hskip;
    [discriminate Hty|].
  apply orb_false_iff in Hskip as [Hf Hg]. apply Nat.eqb_neq in Hf, Hg.
  destruct (scan_isFirstKeepDay s monthtree expect He Hf) as (Hrf & Hcf & _).
  destruct (scan_isSecondKeepDay s monthtree expect He Hg) as (Hrg & Hcg & _).
  fold c in Hrf, Hrg, Hcf, Hcg.
  apply (complete_iff s monthtree _ expect He), completeb_true_iff in Hcf
    as (objects1 & Hl1 & Hne1 & _).
  apply (complete_iff s monthtree _ expect He), completeb_true_iff in Hcg
    as (objects2 & Hl2 & Hne2 & _).
  destruct objects1 as [|o1 objects1]; [done|].
  destruct objects2 as [|o2 objects2]; [done|].
  exists (scanFrom c 14 1), (scanFrom c 17 15), (o1 :: objects1), (o2 :: objects2), o1, o2.
  split; [done|]. split; [done|]. split; [done|]. split; [left|].
  split; [done|]. split; [left|].
  split; apply (elem_of_monthDecisions _ _ _ _ _ Hwf).
  - exists (scanFrom c 14 1), (o1 :: objects1), o1.
    split; [done|]. split; [left|]. unfold decisionFor.
    by rewrite Nat.eqb_refl.
  - exists (scanFrom c 17 15), (o2 :: objects2), o2.
    split; [done|]. split; [left|]. unfold decisionFor.
    by rewrite Nat.eqb_refl, orb_true_r.
Qed.

Lemma flush_is_monthwise_witness :
  exists s',
    _flush ex_state_june = (Ok tt, s') /\ ended s' = true /\
    mkDecision "remove" "/backups/2020/06/03/a.log" None ∈ pushed s'.
Proof.
  assert (MonthTree_wf ex_days_1_3_15_20) as Hwf by solve_MonthTree_wf.
  destruct (flush_is_monthwise ex_state_june [])
    as (s' & Hrun & Hended & _ & Hpushed & _).
  - vm_compute. reflexivity.
  - intros y yeartree m monthtree d objects Hy Hm Hd.
    change (mpm_root ex_state_june)
      with ({[ 2020%Z := {[ 6 := ex_days_1_3_15_20 ]} ]} : RootTree) in Hy.
    apply lookup_singleton_Some in Hy as [_ <-].
    apply lookup_singleton_Some in Hm as [_ <-].
    by destruct (Hwf d objects Hd).
  - reflexivity.
  - reflexivity.
  - exists s'. split; [exact Hrun|]. split; [exact Hended|].
    apply Hpushed.
    exists 2020%Z, {[ 6 := ex_days_1_3_15_20 ]}, 6, ex_days_1_3_15_20.
    eexists. split; [exact (lookup_singleton_eq _ _)|].
    split; [apply lookup_singleton_eq|].
    split; [vm_compute; reflexivity|].
    cbn [pushed]. right. left.
Defined.

Lemma processMonth_keeps_two_days_witness :
  exists s' ds,
    processMonth "2020-06" ex_days_1_3_15_20 (ex_state []) = (Ok tt, s') /\
    pushed s' = ds /\
    (mkDecision "remove" "/backups/2020/06/03/a.log" None ∈ ds ->
     exists p1 p2,
       mkDecision "skip" p1 (Some "designated for keeping") ∈ ds /\
       mkDecision "skip" p2 (Some "designated for keeping") ∈ ds).
Proof.
  destruct (processMonth_keeps_two_days "2020-06" ex_days_1_3_15_20 (ex_state []) [])
    as (s' & ds & Hrun & Hpushed & Hkeeps).
  - vm_compute. reflexivity.
  - solve_MonthTree_wf.
  - exists s', ds. split; [exact Hrun|]. split; [exact Hpushed|].
    intros Hin.
    destruct (Hkeeps _ Hin eq_refl)
      as (f & g & objects1 & objects2 & o1 & o2 & _ & _ & _ & _ & _ & _ & H1 & H2).
    by exists (path o1), (path o2).
Defined.
